(** * Gemscap statistical-arbitrage back end: resampler, finalizer, alert
      manager, tick buffer and broadcast fabric.

    Shallow embedding of [BackEnd/app/*.py].  Instants are integers counting
    microseconds since the epoch (the resolution of [datetime]); prices,
    quantities and thresholds are rationals; Python dictionaries keyed by
    symbol are finite maps; the spread series of the z-score are binary64
    floating-point numbers. *)

From Stdlib Require Import ZArith QArith Qabs Lia Lqa List Sorted Floats Uint63.
From stdpp Require Import gmap strings list fin_maps.

Local Open Scope Z_scope.

(** ** Python primitives used by the code *)

Module Py.

(** Number of elements, as the [int] that [len] returns. *)
Definition len {A} (l : list A) : Z := Z.of_nat (length l).

(** [l[i:]] with Python's treatment of negative and out-of-range bounds. *)
Definition slice_from {A} (l : list A) (i : Z) : list A :=
  let start := if i <? 0 then Z.max (len l + i) 0 else Z.min i (len l) in
  drop (Z.to_nat start) l.

(** [l[:j]]. *)
Definition slice_to {A} (l : list A) (j : Z) : list A :=
  let stop := if j <? 0 then Z.max (len l + j) 0 else Z.min j (len l) in
  take (Z.to_nat stop) l.

(** [l[i]] for a possibly negative index; [None] stands for IndexError. *)
Definition index {A} (l : list A) (i : Z) : option A :=
  if i <? 0 then
    (if len l + i <? 0 then None else l !! Z.to_nat (len l + i))
  else l !! Z.to_nat i.

(** [max(a, b)]: the first argument is kept unless the second is
    strictly greater. *)
Definition max (a b : Q) : Q := if Qlt_le_dec a b then b else a.

(** [min(a, b)]: the first argument is kept unless the second is
    strictly smaller. *)
Definition min (a b : Q) : Q := if Qlt_le_dec b a then b else a.

(** [x or d] on an optional integer: [None] and [0] are falsy. *)
Definition int_or (x : option Z) (d : Z) : Z :=
  match x with
  | None => d
  | Some v => if v =? 0 then d else v
  end.

(** [collections.deque(maxlen=m).append(x)] for [m >= 0]: a full deque
    discards its leftmost element; with [m = 0] nothing is ever kept. *)
Definition deque_append {A} (maxlen : Z) (d : list A) (x : A) : list A :=
  if maxlen =? 0 then d
  else if len d =? maxlen then tail d ++ [x]
  else d ++ [x].

End Py.

(** ** Instants *)

Module Instant.

Definition us_per_second : Z := 1000000.
Definition us_per_minute : Z := 60 * us_per_second.

(** [t.replace(microsecond=0)] *)
Definition floor_second (t : Z) : Z := t - t mod us_per_second.

(** [t.replace(second=0, microsecond=0)] *)
Definition floor_minute (t : Z) : Z := t - t mod us_per_minute.

(** [t.second] *)
Definition second_of (t : Z) : Z := (t / us_per_second) mod 60.

(** Clock reading [hh:mm:ss.000000] on the epoch day, for examples. *)
Definition hms (h m s : Z) : Z := ((h * 60 + m) * 60 + s) * us_per_second.

Definition digit (d : Z) : string :=
  String (Ascii.ascii_of_nat (48 + Z.to_nat d)) EmptyString.

Definition two_digits (n : Z) : string :=
  (digit (n / 10) ++ digit (n mod 10))%string.

(** [t.strftime('%H:%M:%S')] *)
Definition strftime_HMS (t : Z) : string :=
  let s := t / us_per_second in
  (two_digits ((s / 3600) mod 24) ++ ":" ++
   two_digits ((s / 60) mod 60) ++ ":" ++ two_digits (s mod 60))%string.

End Instant.

(** ** Resampling engine ([app/resampling.py]) *)

Record TickData := mkTick {
  tick_symbol : string;
  tick_price : Q;
  tick_timestamp : Z;
  tick_qty : Q
}.

Record Bar := mkBar {
  bar_timestamp : Z;
  bar_open : Q;
  bar_high : Q;
  bar_low : Q;
  bar_close : Q;
  bar_volume : Q;
  bar_symbol : string;
  bar_interval : string
}.

(** State of [ResamplingEngine].  The attributes that only throttle log
    output ([_bars_created], [_last_logged_count]) carry no behaviour and
    are left out, as is the never-read [last_*_timestamp]. *)
Record ResamplingEngine := mkEngine {
  second_bars : gmap string (list Bar);
  minute_bars : gmap string (list Bar);
  current_second_bar : gmap string Bar;
  current_minute_bar : gmap string Bar;
  max_bars_per_symbol : Z
}.

Module Resampling.

Definition init : ResamplingEngine :=
  {| second_bars := ∅; minute_bars := ∅;
     current_second_bar := ∅; current_minute_bar := ∅;
     max_bars_per_symbol := 1000 |}.

(** [_bar_exists] *)
Definition _bar_exists (bar_list : list Bar) (timestamp : Z) : bool :=
  existsb (fun bar => bool_decide (bar_timestamp bar = timestamp)) bar_list.

(** [if len(l) > max_bars_per_symbol: l = l[-max_bars_per_symbol:]] *)
Definition trim (maxb : Z) (l : list Bar) : list Bar :=
  if Py.len l >? maxb then Py.slice_from l (- maxb) else l.

(** The archival block that the source repeats in [_process_second_bar],
    [_process_minute_bar] and [MinuteBarFinalizer._finalize_bar]: make sure
    the symbol has a list, append the bar unless one with its timestamp is
    already stored, and trim to the newest [max_bars_per_symbol]. *)
Definition archive (maxb : Z) (bars : gmap string (list Bar))
    (symbol : string) (stored_bar : Bar) : gmap string (list Bar) :=
  let bars1 :=
    match bars !! symbol with
    | None => <[symbol := []]> bars
    | Some _ => bars
    end in
  let l := default [] (bars1 !! symbol) in
  if _bar_exists l (bar_timestamp stored_bar) then bars1
  else <[symbol := trim maxb (l ++ [stored_bar])]> bars1.

Definition new_bar (start : Z) (tick : TickData) (symbol interval : string) : Bar :=
  {| bar_timestamp := start;
     bar_open := tick_price tick; bar_high := tick_price tick;
     bar_low := tick_price tick; bar_close := tick_price tick;
     bar_volume := tick_qty tick;
     bar_symbol := symbol; bar_interval := interval |}.

(** In-place update of the current bar by a tick. *)
Definition update_bar (current_bar : Bar) (tick : TickData) : Bar :=
  {| bar_timestamp := bar_timestamp current_bar;
     bar_open := bar_open current_bar;
     bar_high := Py.max (bar_high current_bar) (tick_price tick);
     bar_low := Py.min (bar_low current_bar) (tick_price tick);
     bar_close := tick_price tick;
     bar_volume := (bar_volume current_bar + tick_qty tick)%Q;
     bar_symbol := bar_symbol current_bar;
     bar_interval := bar_interval current_bar |}.

(** [_process_second_bar] *)
Definition _process_second_bar (e : ResamplingEngine) (tick : TickData)
    (symbol : string) (tick_time : Z) : ResamplingEngine :=
  let second_start := Instant.floor_second tick_time in
  match current_second_bar e !! symbol with
  | Some current_bar =>
      if decide (bar_timestamp current_bar = second_start) then
        {| second_bars := second_bars e; minute_bars := minute_bars e;
           current_second_bar :=
             <[symbol := update_bar current_bar tick]> (current_second_bar e);
           current_minute_bar := current_minute_bar e;
           max_bars_per_symbol := max_bars_per_symbol e |}
      else
        {| second_bars :=
             archive (max_bars_per_symbol e) (second_bars e) symbol current_bar;
           minute_bars := minute_bars e;
           current_second_bar :=
             <[symbol := new_bar second_start tick symbol "1s"]>
               (current_second_bar e);
           current_minute_bar := current_minute_bar e;
           max_bars_per_symbol := max_bars_per_symbol e |}
  | None =>
      {| second_bars := second_bars e; minute_bars := minute_bars e;
         current_second_bar :=
           <[symbol := new_bar second_start tick symbol "1s"]>
             (current_second_bar e);
         current_minute_bar := current_minute_bar e;
         max_bars_per_symbol := max_bars_per_symbol e |}
  end.

(** [_process_minute_bar]: first the finalisation of an older current bar,
    then creation or update of the current one. *)
Definition _process_minute_bar (e : ResamplingEngine) (tick : TickData)
    (symbol : string) (tick_time : Z) : ResamplingEngine :=
  let minute_start := Instant.floor_minute tick_time in
  let e1 :=
    match current_minute_bar e !! symbol with
    | Some current_bar =>
        if decide (bar_timestamp current_bar < minute_start) then
          {| second_bars := second_bars e;
             minute_bars :=
               archive (max_bars_per_symbol e) (minute_bars e) symbol current_bar;
             current_second_bar := current_second_bar e;
             current_minute_bar := delete symbol (current_minute_bar e);
             max_bars_per_symbol := max_bars_per_symbol e |}
        else e
    | None => e
    end in
  match current_minute_bar e1 !! symbol with
  | None =>
      {| second_bars := second_bars e1; minute_bars := minute_bars e1;
         current_second_bar := current_second_bar e1;
         current_minute_bar :=
           <[symbol := new_bar minute_start tick symbol "1m"]>
             (current_minute_bar e1);
         max_bars_per_symbol := max_bars_per_symbol e1 |}
  | Some current_bar =>
      {| second_bars := second_bars e1; minute_bars := minute_bars e1;
         current_second_bar := current_second_bar e1;
         current_minute_bar :=
           <[symbol := update_bar current_bar tick]> (current_minute_bar e1);
         max_bars_per_symbol := max_bars_per_symbol e1 |}
  end.

(** [_process_tick] *)
Definition _process_tick (e : ResamplingEngine) (tick : TickData)
    (symbol : string) : ResamplingEngine :=
  let tick_time := tick_timestamp tick in
  let e1 := _process_second_bar e tick symbol tick_time in
  _process_minute_bar e1 tick symbol tick_time.

(** [process_ticks] *)
Definition process_ticks (e : ResamplingEngine) (ticks : list TickData)
    (symbol : string) : ResamplingEngine :=
  foldl (fun e tick => _process_tick e tick symbol) e ticks.

(** The dictionary that [get_bars] builds for a bar (fixed keys; the
    interval is not copied). *)
Record BarDict := mkBarDict {
  d_timestamp : Z;
  d_open : Q;
  d_high : Q;
  d_low : Q;
  d_close : Q;
  d_volume : Q;
  d_symbol : string
}.

Definition bar_dict (bar : Bar) : BarDict :=
  {| d_timestamp := bar_timestamp bar;
     d_open := bar_open bar; d_high := bar_high bar; d_low := bar_low bar;
     d_close := bar_close bar; d_volume := bar_volume bar;
     d_symbol := bar_symbol bar |}.

(** [result.sort(key=lambda x: x['timestamp'])]: Python's sort is stable,
    so its result is that of a stable insertion sort. *)
Fixpoint sort_insert (x : BarDict) (l : list BarDict) : list BarDict :=
  match l with
  | [] => [x]
  | y :: l' =>
      if d_timestamp x <=? d_timestamp y then x :: y :: l'
      else y :: sort_insert x l'
  end.

Definition sort_by_timestamp (l : list BarDict) : list BarDict :=
  foldr sort_insert [] l.

(** The branch shared by the two intervals of [get_bars]. *)
Definition list_bars (stored_bars : list Bar) (current_bar : option Bar)
    (n : Z) : list BarDict :=
  let result :=
    (bar_dict <$> stored_bars) ++
    match current_bar with Some b => [bar_dict b] | None => [] end in
  let result := sort_by_timestamp result in
  if Py.len result >? n then Py.slice_from result (- n) else result.

(** [get_bars] *)
Definition get_bars (e : ResamplingEngine) (symbol interval : string)
    (n : Z) : list BarDict :=
  if decide (interval = "1m") then
    list_bars (default [] (minute_bars e !! symbol))
              (current_minute_bar e !! symbol) n
  else if decide (interval = "1s") then
    list_bars (default [] (second_bars e !! symbol))
              (current_second_bar e !! symbol) n
  else [].

(** Values stored in a combined row of [get_price_history]. *)
Inductive cell :=
| CNone
| CTime (t : Z)
| CPrice (p : Q).

Definition is_none (c : option cell) : bool :=
  match c with Some CNone => true | _ => false end.

(** [min(len(bars) for bars in all_bars.values())] on a non-empty
    dictionary. *)
Definition min_len (all_bars : gmap string (list BarDict)) : Z :=
  match (Py.len <$> (map_to_list all_bars).*2) with
  | [] => 0
  | x :: xs => foldl Z.min x xs
  end.

(** The inner loop of [get_price_history] for one symbol. *)
Definition combine_symbol (all_bars : gmap string (list BarDict)) (i : Z)
    (combined_bar : gmap string cell) (symbol : string) : gmap string cell :=
  let bars := default [] (all_bars !! symbol) in
  if Py.len bars >=? Z.abs i then
    match Py.index bars i with
    | Some bar =>
        let c1 :=
          if is_none (combined_bar !! "timestamp")
          then <["timestamp" := CTime (d_timestamp bar)]> combined_bar
          else combined_bar in
        <[symbol := CPrice (d_close bar)]> c1
    | None => combined_bar
    end
  else combined_bar.

(** The bar that the inner loop reads for [symbol] at tail offset [i], if
    the symbol has that many bars. *)
Definition picked (all_bars : gmap string (list BarDict)) (i : Z)
    (symbol : string) : option BarDict :=
  let bars := default [] (all_bars !! symbol) in
  if Py.len bars >=? Z.abs i then Py.index bars i else None.

Definition combined_row (all_bars : gmap string (list BarDict))
    (symbols : list string) (i : Z) : gmap string cell :=
  foldl (combine_symbol all_bars i) {["timestamp" := CNone]} symbols.

(** [range(-min_length, 0)] *)
Definition tail_offsets (min_length : Z) : list Z :=
  (fun k => - min_length + Z.of_nat k) <$> seq 0 (Z.to_nat min_length).

(** [get_price_history] *)
Definition get_price_history (e : ResamplingEngine) (symbols : list string)
    (interval : string) (n : Z) : list (gmap string cell) :=
  match symbols with
  | [] => []
  | _ =>
      let all_bars :=
        foldl (fun m symbol => <[symbol := get_bars e symbol interval n]> m)
              (∅ : gmap string (list BarDict)) symbols in
      let min_length := min_len all_bars in
      if min_length =? 0 then []
      else
        filter (fun row => is_none (row !! "timestamp") = false)
               (combined_row all_bars symbols <$> tail_offsets min_length)
  end.

End Resampling.

(** ** Minute-bar finalizer ([app/minute_bar_finalizer.py]) *)

Module MinuteBarFinalizer.
Import Resampling.

(** The test that [_check_and_finalize] applies to each current bar. *)
Definition due (current_time : Z) (bar : Bar) : bool :=
  let current_minute := Instant.floor_minute current_time in
  let previous_minute := current_minute - Instant.us_per_minute in
  if decide (bar_timestamp bar < previous_minute) then true
  else if decide (bar_timestamp bar = previous_minute) then
    bool_decide (Instant.second_of current_time > 5)
  else false.

(** [_finalize_bar] *)
Definition _finalize_bar (e : ResamplingEngine) (symbol : string)
    : ResamplingEngine :=
  match current_minute_bar e !! symbol with
  | None => e
  | Some bar =>
      {| second_bars := second_bars e;
         minute_bars := archive (max_bars_per_symbol e) (minute_bars e) symbol bar;
         current_second_bar := current_second_bar e;
         current_minute_bar := delete symbol (current_minute_bar e);
         max_bars_per_symbol := max_bars_per_symbol e |}
  end.

(** [_check_and_finalize] at wall-clock reading [current_time]. *)
Definition _check_and_finalize (e : ResamplingEngine) (current_time : Z)
    : ResamplingEngine :=
  let symbols_to_finalize :=
    (filter (fun sb => due current_time sb.2 = true)
            (map_to_list (current_minute_bar e))).*1 in
  foldl _finalize_bar e symbols_to_finalize.

(** Finalized history of [symbol] once its current bar, if any, has been
    finalized. *)
Definition finalized_history (e : ResamplingEngine) (symbol : string)
    : option (list Bar) :=
  match current_minute_bar e !! symbol with
  | Some bar => archive (max_bars_per_symbol e) (minute_bars e) symbol bar !! symbol
  | None => minute_bars e !! symbol
  end.

End MinuteBarFinalizer.

(** ** Well-formed bars and reachable engine states *)

Module Invariants.
Import Resampling MinuteBarFinalizer.

(** low <= open <= high, low <= close <= high and volume >= 0. *)
Definition bar_ok (b : Bar) : Prop :=
  (bar_low b <= bar_open b)%Q /\ (bar_open b <= bar_high b)%Q /\
  (bar_low b <= bar_close b)%Q /\ (bar_close b <= bar_high b)%Q /\
  (0 <= bar_volume b)%Q.

(** Every bar the engine holds, current or finalized, is well formed. *)
Definition engine_ok (e : ResamplingEngine) : Prop :=
  (forall s l, second_bars e !! s = Some l -> Forall bar_ok l) /\
  (forall s l, minute_bars e !! s = Some l -> Forall bar_ok l) /\
  (forall s b, current_second_bar e !! s = Some b -> bar_ok b) /\
  (forall s b, current_minute_bar e !! s = Some b -> bar_ok b).

(** A tick as the tick source emits it. *)
Definition valid_tick (t : TickData) : Prop :=
  (0 < tick_price t)%Q /\ (0 <= tick_qty t)%Q.

(** States of the engine: the initial one, and those reached by processing a
    valid tick for some symbol or by a check of the finalizer at some
    wall-clock reading. *)
Inductive reachable : ResamplingEngine -> Prop :=
| reach_init : reachable init
| reach_tick e tick symbol :
    reachable e -> valid_tick tick -> reachable (_process_tick e tick symbol)
| reach_check e W :
    reachable e -> reachable (_check_and_finalize e W).

(** The tick's minute is earlier than that of the symbol's current bar. *)
Definition late_for_minute (e : ResamplingEngine) (symbol : string)
    (tau : Z) : Prop :=
  exists B, current_minute_bar e !! symbol = Some B /\
            Instant.floor_minute tau < bar_timestamp B.

End Invariants.

(** ** Tick buffer ([app/ingestion.py]) *)

Module settings.
Definition TICK_BUFFER_SIZE : Z := 10000.
Definition ALERT_COOLDOWN_SECONDS : Z := 60.
Definition MAX_ALERTS : Z := 100.
End settings.

Record TickBuffer := mkTickBuffer {
  tb_symbol : string;
  max_size : Z;
  ticks : list TickData;
  last_tick : option TickData;
  tick_count : Z
}.

Module Ingestion.

(** [TickBuffer.__init__]; [None] stands for the [ValueError] that
    [deque] raises on a negative [maxlen]. *)
Definition init (symbol : string) (max_size : option Z) : option TickBuffer :=
  let m := Py.int_or max_size settings.TICK_BUFFER_SIZE in
  if m <? 0 then None
  else Some {| tb_symbol := symbol; max_size := m; ticks := [];
               last_tick := None; tick_count := 0 |}.

(** [TickBuffer.add_tick] *)
Definition add_tick (b : TickBuffer) (tick : TickData) : TickBuffer :=
  {| tb_symbol := tb_symbol b; max_size := max_size b;
     ticks := Py.deque_append (max_size b) (ticks b) tick;
     last_tick := Some tick;
     tick_count := tick_count b + 1 |}.

Definition add_ticks (b : TickBuffer) (l : list TickData) : TickBuffer :=
  foldl add_tick b l.

End Ingestion.

(** ** Alert manager ([app/alerts.py]) *)

(** The formatted message of an alert, kept as its template and arguments. *)
Inductive message :=
| MsgBreach (zscore : Q) (direction : string) (threshold : Q)
| MsgApproach (zscore threshold : Q)
| MsgLowCorrelation (correlation min_threshold : Q)
| MsgHighVolatility (volatility max_threshold : Q)
| MsgText (s : string).

Record Alert := mkAlert {
  alert_id : string;
  alert_type : string;
  alert_title : string;
  alert_message : message;
  alert_timestamp : string;
  alert_symbol : option string;
  alert_value : option Q;
  alert_metric : option string;
  alert_threshold : option Q;
  alert_direction : option string
}.

(** State of [AlertManager].  [alerts] is the deque, oldest first.  The
    subscriber callbacks only receive the alert, and whatever they raise is
    caught and logged, so they are not part of the state. *)
Record AlertManager := mkAlertManager {
  max_alerts : Z;
  cooldown_seconds : Z;
  alerts : list Alert;
  last_alert_time : gmap string Z
}.

(** What one call of [create_alert] reads from its environment: the three
    successive readings of [datetime.utcnow()] and the [uuid4] drawn. *)
Record Clock := mkClock {
  now_check : Z;
  now_stamp : Z;
  now_fire : Z;
  uuid : string
}.

(** Result of a call on the alert manager: normal return with the new state,
    or an exception raised with the state it leaves behind. *)
Inductive outcome (A : Type) :=
| Ret (m : AlertManager) (a : A)
| Raise (m : AlertManager) (err : string).
Arguments Ret {A} m a.
Arguments Raise {A} m err.

Module Alerts.

Definition bind {A B} (x : outcome A) (f : AlertManager -> A -> outcome B)
    : outcome B :=
  match x with
  | Ret m a => f m a
  | Raise m err => Raise m err
  end.

Definition state_of {A} (x : outcome A) : AlertManager :=
  match x with Ret m _ => m | Raise m _ => m end.

(** [AlertManager.__init__]; [None] stands for the [ValueError] of a deque
    with negative [maxlen]. *)
Definition init (max_alerts cooldown_seconds : option Z) : option AlertManager :=
  let ma := Py.int_or max_alerts settings.MAX_ALERTS in
  let cd := Py.int_or cooldown_seconds settings.ALERT_COOLDOWN_SECONDS in
  if ma <? 0 then None
  else Some {| max_alerts := ma; cooldown_seconds := cd;
               alerts := []; last_alert_time := ∅ |}.

(** [str(symbol)] inside the f-string of the key. *)
Definition str_opt (symbol : option string) : string :=
  match symbol with Some s => s | None => "None" end.

(** [f"{alert_type}:{title}:{symbol}"] *)
Definition alert_key (alert_type title : string) (symbol : option string)
    : string :=
  (alert_type ++ ":" ++ title ++ ":" ++ str_opt symbol)%string.

(** [(now - last).total_seconds()] *)
Definition total_seconds (delta : Z) : Q := delta # 1000000.

(** [_should_fire_alert] with the clock reading [now]. *)
Definition _should_fire_alert (m : AlertManager) (alert_key : string)
    (now : Z) : bool :=
  match last_alert_time m !! alert_key with
  | None => true
  | Some last =>
      let time_since_last := total_seconds (now - last) in
      Qle_bool (inject_Z (cooldown_seconds m)) time_since_last
  end.

(** The [pattern] that the [Alert] schema imposes on [type]. *)
Definition valid_type (alert_type : string) : bool :=
  bool_decide (alert_type ∈ ["info"; "warning"; "danger"; "ALERT"]).

(** [create_alert] *)
Definition create_alert (m : AlertManager) (clk : Clock)
    (alert_type title : string) (msg : message) (symbol : option string)
    (value : option Q) (metric : option string) (threshold : option Q)
    (direction : option string) : outcome (option Alert) :=
  let key := alert_key alert_type title symbol in
  if negb (_should_fire_alert m key (now_check clk)) then Ret m None
  else if negb (valid_type alert_type) then Raise m "ValidationError"
  else
    let alert :=
      {| alert_id := uuid clk; alert_type := alert_type;
         alert_title := title; alert_message := msg;
         alert_timestamp := Instant.strftime_HMS (now_stamp clk);
         alert_symbol := symbol; alert_value := value;
         alert_metric := metric; alert_threshold := threshold;
         alert_direction := direction |} in
    Ret {| max_alerts := max_alerts m;
           cooldown_seconds := cooldown_seconds m;
           alerts := Py.deque_append (max_alerts m) (alerts m) alert;
           last_alert_time := <[key := now_fire clk]> (last_alert_time m) |}
        (Some alert).

Definition direction_of (zscore : Q) : string :=
  if Qlt_le_dec 0 zscore then "above" else "below".

(** [evaluate_zscore_alert]; only the [zScore] field of the data point is
    read. *)
Definition evaluate_zscore_alert (m : AlertManager) (clk : Clock)
    (zscore threshold : Q) : outcome unit :=
  if Qlt_le_dec threshold (Qabs zscore) then
    bind (create_alert m clk "ALERT" "Z-Score Threshold Breach"
            (MsgBreach zscore (direction_of zscore) threshold)
            None (Some zscore) (Some "z_score") (Some threshold)
            (Some (direction_of zscore)))
         (fun m _ => Ret m tt)
  else if Qlt_le_dec (threshold * (8 # 10)) (Qabs zscore) then
    bind (create_alert m clk "warning" "Z-Score Approaching Threshold"
            (MsgApproach zscore threshold)
            None (Some zscore) (Some "z_score") (Some (threshold * (8 # 10))%Q)
            (Some (direction_of zscore)))
         (fun m _ => Ret m tt)
  else Ret m tt.

(** [evaluate_correlation_alert] *)
Definition evaluate_correlation_alert (m : AlertManager) (clk : Clock)
    (correlation min_threshold : Q) : outcome unit :=
  if Qlt_le_dec (Qabs correlation) min_threshold then
    bind (create_alert m clk "warning" "Low Correlation Detected"
            (MsgLowCorrelation correlation min_threshold)
            None (Some correlation) (Some "correlation") (Some min_threshold)
            (Some "below"))
         (fun m _ => Ret m tt)
  else Ret m tt.

(** [evaluate_volatility_alert] *)
Definition evaluate_volatility_alert (m : AlertManager) (clk : Clock)
    (volatility max_threshold : Q) : outcome unit :=
  if Qlt_le_dec max_threshold volatility then
    bind (create_alert m clk "warning" "High Volatility Alert"
            (MsgHighVolatility volatility max_threshold)
            None (Some volatility) (Some "volatility") (Some max_threshold)
            (Some "above"))
         (fun m _ => Ret m tt)
  else Ret m tt.

(** The fields of [SummaryStats] that alert evaluation reads. *)
Record SummaryStats := mkSummary {
  spread : Q;
  zScore : Q;
  rollingVolatility : Q;
  correlation : Q
}.

(** [evaluate_summary_alerts]; each rule has its own clock readings. *)
Definition evaluate_summary_alerts (m : AlertManager)
    (clk_z clk_c clk_v : Clock) (summary : SummaryStats)
    (zscore_threshold : Q) : outcome unit :=
  bind (if Qlt_le_dec zscore_threshold (Qabs (zScore summary))
        then evaluate_zscore_alert m clk_z (zScore summary) zscore_threshold
        else Ret m tt)
    (fun m _ =>
  bind (evaluate_correlation_alert m clk_c (correlation summary) (5 # 10))
    (fun m _ =>
  evaluate_volatility_alert m clk_v (rollingVolatility summary) 500)).

(** [get_active_alerts] *)
Definition get_active_alerts (m : AlertManager) (limit : option Z)
    : list Alert :=
  let alerts := reverse (alerts m) in
  match limit with
  | Some l => if l =? 0 then alerts else Py.slice_to alerts l
  | None => alerts
  end.

End Alerts.

(** ** Broadcast fabric ([app/websocket_manager.py]) *)

(** State of [ConnectionManager]; a WebSocket object is identified by a
    number.  [lock] tells whether the (non-reentrant) [asyncio.Lock] is
    held. *)
Record ConnectionManager := mkManager {
  price_connections : gset nat;
  spread_connections : gset nat;
  correlation_connections : gset nat;
  summary_connections : gset nat;
  alert_connections : gset nat;
  analytics_connections : gset nat;
  all_connections : gmap nat string;
  lock : bool
}.

(** What [send_text] does on a connection. *)
Inductive send_result := SendOk | SendDisconnect | SendError.

(** A coroutine of the manager either runs to completion or suspends for
    ever on [self.lock], which its own task already holds. *)
Inductive run :=
| Done (m : ConnectionManager)
| Blocked (m : ConnectionManager).

Module WebsocketManager.

Definition init : ConnectionManager :=
  {| price_connections := ∅; spread_connections := ∅;
     correlation_connections := ∅; summary_connections := ∅;
     alert_connections := ∅; analytics_connections := ∅;
     all_connections := ∅; lock := false |}.

Definition set_lock (b : bool) (m : ConnectionManager) : ConnectionManager :=
  {| price_connections := price_connections m;
     spread_connections := spread_connections m;
     correlation_connections := correlation_connections m;
     summary_connections := summary_connections m;
     alert_connections := alert_connections m;
     analytics_connections := analytics_connections m;
     all_connections := all_connections m; lock := b |}.

(** [async with self.lock: body]: wait for the lock, run the body, release. *)
Definition with_lock (m : ConnectionManager)
    (body : ConnectionManager -> run) : run :=
  if lock m then Blocked m
  else match body (set_lock true m) with
       | Done m' => Done (set_lock false m')
       | Blocked m' => Blocked m'
       end.

(** [connect] *)
Definition connect (m : ConnectionManager) (websocket : nat)
    (stream_type : string) : run :=
  with_lock m (fun m =>
    let add (name : string) (pool : gset nat) : gset nat :=
      if decide (stream_type = name) then {[websocket]} ∪ pool else pool in
    Done {| price_connections := add "prices" (price_connections m);
            spread_connections := add "spread" (spread_connections m);
            correlation_connections :=
              add "correlation" (correlation_connections m);
            summary_connections := add "summary" (summary_connections m);
            alert_connections := add "alerts" (alert_connections m);
            analytics_connections := add "analytics" (analytics_connections m);
            all_connections := <[websocket := stream_type]> (all_connections m);
            lock := lock m |}).

(** [disconnect] *)
Definition disconnect (m : ConnectionManager) (websocket : nat) : run :=
  with_lock m (fun m =>
    Done {| price_connections := price_connections m ∖ {[websocket]};
            spread_connections := spread_connections m ∖ {[websocket]};
            correlation_connections :=
              correlation_connections m ∖ {[websocket]};
            summary_connections := summary_connections m ∖ {[websocket]};
            alert_connections := alert_connections m ∖ {[websocket]};
            analytics_connections := analytics_connections m ∖ {[websocket]};
            all_connections := delete websocket (all_connections m);
            lock := lock m |}).

(** [for conn in failed_connections: await self.disconnect(conn)] *)
Fixpoint disconnect_all (m : ConnectionManager) (failed : list nat) : run :=
  match failed with
  | [] => Done m
  | conn :: rest =>
      match disconnect m conn with
      | Done m' => disconnect_all m' rest
      | Blocked m' => Blocked m'
      end
  end.

(** The fan-out loop of [broadcast_to_pool]: the frames delivered and the
    connections whose send raised. *)
Fixpoint fan_out (send_text : nat -> string -> send_result)
    (connections : list nat) (message_json : string)
    : list (nat * string) * list nat :=
  match connections with
  | [] => ([], [])
  | connection :: rest =>
      let '(delivered, failed) := fan_out send_text rest message_json in
      match send_text connection message_json with
      | SendOk => ((connection, message_json) :: delivered, failed)
      | SendDisconnect | SendError => (delivered, connection :: failed)
      end
  end.

(** [broadcast_to_pool] on the pool [connections] of [m], with the frame
    [message_json] that [json.dumps] produced.  Returns how the coroutine
    ends and the frames that were delivered. *)
Definition broadcast_to_pool (send_text : nat -> string -> send_result)
    (m : ConnectionManager) (connections : gset nat) (message_json : string)
    : run * list (nat * string) :=
  if decide (connections = ∅) then (Done m, [])
  else
    let '(delivered, failed) :=
      fan_out send_text (elements connections) message_json in
    let failed_connections : gset nat := list_to_set failed in
    if decide (failed_connections = ∅) then (Done m, delivered)
    else
      (with_lock m (fun m => disconnect_all m (elements failed_connections)),
       delivered).

End WebsocketManager.

(** ** Rolling z-score ([app/analytics.py])

    The spread series is a list of binary64 numbers with the IEEE 754
    operations that Python and NumPy apply to them. *)

Module Analytics.
Local Open Scope float_scope.

(** [float(n)] of an [int]. *)
Definition of_int (n : Z) : float :=
  if (n <? 0)%Z then - PrimFloat.of_uint63 (Uint63.of_Z (- n))
  else PrimFloat.of_uint63 (Uint63.of_Z n).

(** The loop [res += a[i]] over the elements in order. *)
Definition accumulate (res : float) (a : list float) : float :=
  foldl PrimFloat.add res a.

(** The unrolled loop of NumPy's summation: eight running sums [r], each
    block of eight elements added to them position by position. *)
Fixpoint unrolled (r : list float) (blocks : nat) (a : list float)
    : list float * list float :=
  match blocks with
  | O => (r, a)
  | S k => unrolled (zip_with PrimFloat.add r (take 8 a)) k (drop 8 a)
  end.

(** Summation of 8 to 128 elements: the eight running sums are combined
    as a balanced tree and the elements left over are added in order. *)
Definition block_sum (a : list float) : float :=
  let '(r, rest) := unrolled (take 8 a) (length a / 8 - 1) (drop 8 a) in
  match r with
  | [r0; r1; r2; r3; r4; r5; r6; r7] =>
      accumulate (((r0 + r1) + (r2 + r3)) + ((r4 + r5) + (r6 + r7))) rest
  | _ => 0
  end.

(** NumPy's pairwise summation of a contiguous array of doubles: in order
    below 8 elements, by [block_sum] up to 128, and by halves (the first
    half a multiple of 8 long) above.  [fuel] bounds the halvings; the
    length of the array is enough. *)
Fixpoint pairwise_sum (fuel : nat) (a : list float) : float :=
  let n := length a in
  if (n <? 8)%nat then accumulate 0 a
  else if (n <=? 128)%nat then block_sum a
  else
    match fuel with
    | O => 0
    | S fuel =>
        let n2 := (n / 2)%nat in
        let n2 := (n2 - n2 mod 8)%nat in
        pairwise_sum fuel (take n2 a) + pairwise_sum fuel (drop n2 a)
    end.

(** [np.add.reduce(a)]: the identity 0 plus the pairwise sum. *)
Definition umr_sum (a : list float) : float :=
  0 + pairwise_sum (length a) a.

(** [np.mean(a)]: the sum divided by the number of elements (NaN for an
    empty array). *)
Definition np_mean (a : list float) : float :=
  umr_sum a / of_int (Py.len a).

(** [np.std(a, ddof=ddof)]: the deviations from the mean are squared and
    summed, divided by [max(len(a) - ddof, 0)], and the root is taken. *)
Definition np_std (a : list float) (ddof : Z) : float :=
  let arrmean := umr_sum a / of_int (Py.len a) in
  let x := (fun v => v - arrmean) <$> a in
  let x := (fun v => v * v) <$> x in
  let rcount := Z.max (Py.len a - ddof) 0 in
  PrimFloat.sqrt (umr_sum x / of_int rcount).

(** Result of [compute_zscore]: [None], a float, or the [IndexError] of
    [spread[-1]] on an empty list. *)
Inductive zresult :=
| ZNone
| ZValue (z : float)
| ZIndexError.

(** [SpreadAnalyzer.compute_zscore] with [self.window = window]. *)
Definition compute_zscore (window : Z) (spread : list float) : zresult :=
  if (Py.len spread <? window)%Z then ZNone
  else
    let recent_spread := Py.slice_from spread (- window) in
    let mean := np_mean recent_spread in
    let std := np_std recent_spread 1 in
    if std =? 0 then ZValue 0
    else
      match Py.index spread (-1) with
      | Some latest_spread => ZValue ((latest_spread - mean) / std)
      | None => ZIndexError
      end.

(** The double nearest to 0.1, the value of the Python literal [0.1]. *)
Definition tenth : float := 0x1.999999999999ap-4.

End Analytics.

(** ** Sequences of [create_alert] calls *)

Module AlertTrace.
Import Alerts.

(** The arguments and environment of one call of [create_alert]. *)
Record call := mkCall {
  c_clk : Clock;
  c_type : string;
  c_title : string;
  c_message : message;
  c_symbol : option string;
  c_value : option Q;
  c_metric : option string;
  c_threshold : option Q;
  c_direction : option string
}.

Definition c_key (c : call) : string :=
  alert_key (c_type c) (c_title c) (c_symbol c).

Definition do_call (m : AlertManager) (c : call) : outcome (option Alert) :=
  create_alert m (c_clk c) (c_type c) (c_title c) (c_message c) (c_symbol c)
    (c_value c) (c_metric c) (c_threshold c) (c_direction c).

(** An emission: the key, the clock reading at which the cooldown was
    checked, and the reading stored as last fire time. *)
Record emission := mkEmission {
  em_key : string;
  em_check : Z;
  em_fire : Z
}.

(** Runs the calls in order (a caller survives a raised exception) and
    collects the emissions, newest first. *)
Fixpoint run_calls (m : AlertManager) (cs : list call) (log : list emission)
    : AlertManager * list emission :=
  match cs with
  | [] => (m, log)
  | c :: cs' =>
      match do_call m c with
      | Ret m' (Some _) =>
          run_calls m' cs'
            (mkEmission (c_key c) (now_check (c_clk c)) (now_fire (c_clk c)) :: log)
      | Ret m' None => run_calls m' cs' log
      | Raise m' _ => run_calls m' cs' log
      end
  end.

(** Fire time of the most recent emission with key [k]. *)
Fixpoint last_fire (log : list emission) (k : string) : option Z :=
  match log with
  | [] => None
  | em :: rest => if decide (em_key em = k) then Some (em_fire em) else last_fire rest k
  end.

(** Every emission was checked at least [cooldown] seconds after the fire
    time of the previous emission with the same key. *)
Fixpoint separated (cooldown : Z) (log : list emission) : Prop :=
  match log with
  | [] => True
  | em :: rest =>
      match last_fire rest (em_key em) with
      | Some previous => cooldown * 1000000 <= em_check em - previous
      | None => True
      end /\ separated cooldown rest
  end.

(** Invariant of a run: the registry holds, for every key, the fire time of
    its latest emission; the ring respects its capacity. *)
Definition consistent (m : AlertManager) (log : list emission) : Prop :=
  (forall k, last_alert_time m !! k = last_fire log k) /\
  1 <= max_alerts m /\ Py.len (alerts m) <= max_alerts m.

End AlertTrace.

(** ** Sample data used by the examples below *)

Module Samples.
Import Resampling Instant.

Definition tk (h m s : Z) (p : Q) : TickData :=
  mkTick "BTCUSDT" p (hms h m s) 1.

(** Ticks at 09:00:10, 09:00:30, 09:00:59 and 09:01:05. *)
Definition scenario2 : ResamplingEngine :=
  process_ticks init
    [tk 9 0 10 100; tk 9 0 30 102; tk 9 0 59 101; tk 9 1 5 105] "BTCUSDT".

Definition bar_0900 : Bar := mkBar (hms 9 0 0) 100 102 100 101 3 "BTCUSDT" "1m".
Definition bar_0901 : Bar := mkBar (hms 9 1 0) 105 105 105 105 1 "BTCUSDT" "1m".

Definition three_ticks : list TickData :=
  [mkTick "BTCUSDT" 1 10 1; mkTick "BTCUSDT" 2 20 1; mkTick "BTCUSDT" 3 30 1].

Definition small_buffer : TickBuffer :=
  {| tb_symbol := "BTCUSDT"; max_size := 2; ticks := [];
     last_tick := None; tick_count := 0 |}.

(** A tick of 09:00:40, after the bar of 09:01 has been opened. *)
Definition late_tick : TickData := tk 9 0 40 90.

(** The bar of 09:00 has been finalized by the check of 09:02:06 when a
    tick of 09:00:50 arrives and opens a current bar of 09:00 again. *)
Definition reopened_minute : ResamplingEngine :=
  _process_tick
    (MinuteBarFinalizer._check_and_finalize
       (process_ticks init [tk 9 0 10 100; tk 9 0 30 102] "BTCUSDT")
       (hms 9 2 6))
    (tk 9 0 50 99) "BTCUSDT".

Definition bar_0900_early : Bar :=
  mkBar (hms 9 0 0) 100 102 100 102 2 "BTCUSDT" "1m".

Definition bar_0900_again : Bar :=
  mkBar (hms 9 0 0) 99 99 99 99 1 "BTCUSDT" "1m".

Definition bar_090105_1s : Bar :=
  mkBar (hms 9 1 5) 105 105 105 105 1 "BTCUSDT" "1s".

Definition manager0 : AlertManager :=
  {| max_alerts := 100; cooldown_seconds := 60; alerts := []; last_alert_time := ∅ |}.

Definition clock_at (t : Z) (id : string) : Clock :=
  {| now_check := t; now_stamp := t; now_fire := t; uuid := id |}.

(** z-score 1.8 against a threshold of 2.0, healthy correlation and
    volatility. *)
Definition quiet_summary : Alerts.SummaryStats :=
  {| Alerts.spread := 5; Alerts.zScore := 18 # 10;
     Alerts.rollingVolatility := 100; Alerts.correlation := 9 # 10 |}.

Definition approach_warning : Alert :=
  {| alert_id := "id-1"; alert_type := "warning";
     alert_title := "Z-Score Approaching Threshold";
     alert_message := MsgApproach (18 # 10) 2;
     alert_timestamp := "09:00:00";
     alert_symbol := None; alert_value := Some (18 # 10);
     alert_metric := Some "z_score";
     alert_threshold := Some (2 * (8 # 10))%Q;
     alert_direction := Some "above" |}.

Definition text_alert (id : string) : Alert :=
  {| alert_id := id; alert_type := "info"; alert_title := "t";
     alert_message := MsgText "m"; alert_timestamp := "09:00:00";
     alert_symbol := None; alert_value := None; alert_metric := None;
     alert_threshold := None; alert_direction := None |}.

Definition manager2 : AlertManager :=
  {| max_alerts := 100; cooldown_seconds := 60;
     alerts := [text_alert "old"; text_alert "new"]; last_alert_time := ∅ |}.

Definition breach_call (t : Z) (id : string) : AlertTrace.call :=
  AlertTrace.mkCall (clock_at t id) "ALERT" "Z-Score Threshold Breach"
    (MsgBreach (425 # 100) "above" 2%Q) None (Some (425 # 100))
    (Some "z_score") (Some 2%Q) (Some "above").

(** A low-correlation warning for BTCUSDT, issued at clock reading [t]. *)
Definition low_correlation_call (t : Z) (id : string) : AlertTrace.call :=
  AlertTrace.mkCall (clock_at t id) "warning" "Low Correlation Detected"
    (MsgLowCorrelation (3 # 10) (5 # 10)) (Some "BTCUSDT") (Some (3 # 10))
    (Some "correlation") (Some (5 # 10)) (Some "below").

(** Two subscribers of the analytics topic, numbered 1 and 2. *)
Definition two_subscribers : ConnectionManager :=
  {| price_connections := ∅; spread_connections := ∅;
     correlation_connections := ∅; summary_connections := ∅;
     alert_connections := ∅; analytics_connections := {[1%nat; 2%nat]};
     all_connections := {[1%nat := "analytics"; 2%nat := "analytics"]};
     lock := false |}.

(** The send to subscriber 1 raises, every other send succeeds. *)
Definition first_send_raises (connection : nat) (frame : string) : send_result :=
  if decide (connection = 1%nat) then SendError else SendOk.

(** An engine that has seen one tick for a symbol named like the reserved
    key of the combined rows. *)
Definition engine_with_timestamp_symbol : ResamplingEngine :=
  process_ticks init [mkTick "timestamp" 100 (hms 9 0 10) 1] "timestamp".

(** The ticks of [scenario2] for BTCUSDT and two ticks for ETHUSDT. *)
Definition two_symbol_engine : ResamplingEngine :=
  process_ticks scenario2
    [mkTick "ETHUSDT" 10 (hms 9 0 20) 1; mkTick "ETHUSDT" 11 (hms 9 1 30) 2]
    "ETHUSDT".

End Samples.

(** ** Further operations of the engines *)

Module ResamplingAdmin.

(** [ResamplingEngine.clear]: [if symbol:] is false for [None] and for the
    empty string, and then every collection is emptied. *)
Definition clear (e : ResamplingEngine) (symbol : option string)
    : ResamplingEngine :=
  match symbol with
  | Some s =>
      if decide (s = "") then
        {| second_bars := ∅; minute_bars := ∅; current_second_bar := ∅;
           current_minute_bar := ∅;
           max_bars_per_symbol := max_bars_per_symbol e |}
      else
        {| second_bars := delete s (second_bars e);
           minute_bars := delete s (minute_bars e);
           current_second_bar := delete s (current_second_bar e);
           current_minute_bar := delete s (current_minute_bar e);
           max_bars_per_symbol := max_bars_per_symbol e |}
  | None =>
      {| second_bars := ∅; minute_bars := ∅; current_second_bar := ∅;
         current_minute_bar := ∅;
         max_bars_per_symbol := max_bars_per_symbol e |}
  end.

(** Bucket-starts of a list of bars or of bar dictionaries. *)
Definition timestamps (l : list Bar) : list Z := bar_timestamp <$> l.

(** A history without repeated bucket-starts and of at most [maxb] bars. *)
Definition history_ok (maxb : Z) (l : list Bar) : Prop :=
  NoDup (timestamps l) /\ Py.len l <= maxb.

(** Every finalized history is free of repeated bucket-starts and holds at
    most [max_bars_per_symbol] bars. *)
Definition histories_ok (e : ResamplingEngine) : Prop :=
  (forall s l, second_bars e !! s = Some l ->
     NoDup (timestamps l) /\ Py.len l <= max_bars_per_symbol e) /\
  (forall s l, minute_bars e !! s = Some l ->
     NoDup (timestamps l) /\ Py.len l <= max_bars_per_symbol e) /\
  1 <= max_bars_per_symbol e.

(** States reached from the initial one by ticks of any kind, finalizer
    checks and calls of [clear]. *)
Inductive run_state : ResamplingEngine -> Prop :=
| run_init : run_state Resampling.init
| run_tick e tick symbol :
    run_state e -> run_state (Resampling._process_tick e tick symbol)
| run_check e W :
    run_state e -> run_state (MinuteBarFinalizer._check_and_finalize e W)
| run_clear e symbol :
    run_state e -> run_state (clear e symbol).

(** States reached the way the application drives the engine: every tick
    is processed under its own symbol ([process_ticks([tick], tick.symbol)]
    in the tick handler), and that symbol is one of [allowed]; finalizer
    checks and calls of [clear] come in between. *)
Inductive fed (allowed : string -> Prop) : ResamplingEngine -> Prop :=
| fed_init : fed allowed Resampling.init
| fed_tick e tick :
    fed allowed e -> allowed (tick_symbol tick) ->
    fed allowed (Resampling._process_tick e tick (tick_symbol tick))
| fed_check e W :
    fed allowed e -> fed allowed (MinuteBarFinalizer._check_and_finalize e W)
| fed_clear e symbol :
    fed allowed e -> fed allowed (clear e symbol).

(** The engine holds nothing under [symbol]. *)
Definition untracked (e : ResamplingEngine) (symbol : string) : Prop :=
  second_bars e !! symbol = None /\ minute_bars e !! symbol = None /\
  current_second_bar e !! symbol = None /\
  current_minute_bar e !! symbol = None.

(** The bars the engine holds for a symbol on an interval: the finalized
    ones followed by the current one; none on an interval other than 1m
    and 1s. *)
Definition held (e : ResamplingEngine) (symbol interval : string) : list Bar :=
  if decide (interval = "1m") then
    default [] (minute_bars e !! symbol) ++ option_list (current_minute_bar e !! symbol)
  else if decide (interval = "1s") then
    default [] (second_bars e !! symbol) ++ option_list (current_second_bar e !! symbol)
  else [].

(** Ascending order of bucket-starts. *)
Definition by_time (a b : Resampling.BarDict) : Prop :=
  Resampling.d_timestamp a <= Resampling.d_timestamp b.

End ResamplingAdmin.

(** ** Ingestion engine ([app/ingestion.py]) *)

Record IngestionEngine := mkIngestion {
  buffers : gmap string TickBuffer
}.

Module IngestionEngineOps.

(** [TickBuffer(symbol)] with the default capacity. *)
Definition new_buffer (symbol : string) : TickBuffer :=
  {| tb_symbol := symbol;
     max_size := Py.int_or None settings.TICK_BUFFER_SIZE;
     ticks := []; last_tick := None; tick_count := 0 |}.

(** [TickBuffer.get_latest]: [list(self.ticks)[-n:]] *)
Definition get_latest (b : TickBuffer) (n : Z) : list TickData :=
  Py.slice_from (ticks b) (- n).

(** [TickBuffer.get_all] *)
Definition get_all (b : TickBuffer) : list TickData := ticks b.

(** [TickBuffer.clear]: the running count is not reset. *)
Definition clear (b : TickBuffer) : TickBuffer :=
  {| tb_symbol := tb_symbol b; max_size := max_size b; ticks := [];
     last_tick := None; tick_count := tick_count b |}.

(** [get_or_create_buffer]: the engine after the call and the buffer it
    returns. *)
Definition get_or_create_buffer (e : IngestionEngine) (symbol : string)
    : IngestionEngine * TickBuffer :=
  match buffers e !! symbol with
  | Some b => (e, b)
  | None =>
      ({| buffers := <[symbol := new_buffer symbol]> (buffers e) |},
       new_buffer symbol)
  end.

(** [ingest_tick]: the buffer object is updated in place. *)
Definition ingest_tick (e : IngestionEngine) (tick : TickData)
    : IngestionEngine :=
  let '(e1, buffer) := get_or_create_buffer e (tick_symbol tick) in
  {| buffers := <[tick_symbol tick := Ingestion.add_tick buffer tick]> (buffers e1) |}.

(** The loop of [get_latest_prices] over the symbols to query. *)
Definition collect_price (e : IngestionEngine) (prices : gmap string Q)
    (symbol : string) : gmap string Q :=
  match buffers e !! symbol with
  | Some buffer =>
      match last_tick buffer with
      | Some t => <[symbol := tick_price t]> prices
      | None => prices
      end
  | None => prices
  end.

(** [get_latest_prices]: [symbols or list(self.buffers.keys())], so that an
    empty list asks for every symbol, like [None]. *)
Definition get_latest_prices (e : IngestionEngine)
    (symbols : option (list string)) : gmap string Q :=
  let symbols_to_query :=
    match symbols with
    | Some (s :: l) => s :: l
    | _ => (map_to_list (buffers e)).*1
    end in
  foldl (collect_price e) ∅ symbols_to_query.

(** [clear_all] *)
Definition clear_all (e : IngestionEngine) : IngestionEngine :=
  {| buffers := clear <$> buffers e |}.

(** [get_active_symbols] *)
Definition get_active_symbols (e : IngestionEngine) : list string :=
  (map_to_list (buffers e)).*1.

(** Price of the most recent tick held for a symbol, if any. *)
Definition last_price (e : IngestionEngine) (symbol : string) : option Q :=
  tick_price <$> (buffers e !! symbol ≫= last_tick).

End IngestionEngineOps.

Module AlertsAdmin.

(** [clear_alerts] *)
Definition clear_alerts (m : AlertManager) : AlertManager :=
  {| max_alerts := max_alerts m; cooldown_seconds := cooldown_seconds m;
     alerts := []; last_alert_time := ∅ |}.

End AlertsAdmin.

Module WebsocketAdmin.

(** The state in which a coroutine of the manager ends or stays blocked. *)
Definition manager_of (r : run) : ConnectionManager :=
  match r with Done m => m | Blocked m => m end.

(** The connection is registered nowhere. *)
Definition unknown (m : ConnectionManager) (websocket : nat) : Prop :=
  (websocket ∉ price_connections m) /\ (websocket ∉ spread_connections m) /\
  (websocket ∉ correlation_connections m) /\
  (websocket ∉ summary_connections m) /\
  (websocket ∉ alert_connections m) /\ (websocket ∉ analytics_connections m) /\
  all_connections m !! websocket = None.

(** [get_connection_count] *)
Definition get_connection_count (m : ConnectionManager) : Z :=
  Z.of_nat (size (all_connections m)).

(** [get_connection_stats]: the dictionary, in the order of its keys. *)
Definition get_connection_stats (m : ConnectionManager) : list (string * Z) :=
  [("total", Z.of_nat (size (all_connections m)));
   ("prices", Z.of_nat (size (price_connections m)));
   ("spread", Z.of_nat (size (spread_connections m)));
   ("correlation", Z.of_nat (size (correlation_connections m)));
   ("summary", Z.of_nat (size (summary_connections m)));
   ("alerts", Z.of_nat (size (alert_connections m)));
   ("analytics", Z.of_nat (size (analytics_connections m)))].

(** Every member of a pool is a key of [all_connections]. *)
Definition registered (m : ConnectionManager) : Prop :=
  price_connections m ⊆ dom (all_connections m) /\
  spread_connections m ⊆ dom (all_connections m) /\
  correlation_connections m ⊆ dom (all_connections m) /\
  summary_connections m ⊆ dom (all_connections m) /\
  alert_connections m ⊆ dom (all_connections m) /\
  analytics_connections m ⊆ dom (all_connections m).

(** The states of the manager after calls of [connect], [disconnect] and
    [broadcast_to_pool] that ran to completion, from the initial one. *)
Inductive reachable : ConnectionManager -> Prop :=
| reach_init : reachable WebsocketManager.init
| reach_connect m websocket stream_type m' :
    reachable m ->
    WebsocketManager.connect m websocket stream_type = Done m' ->
    reachable m'
| reach_disconnect m websocket m' :
    reachable m ->
    WebsocketManager.disconnect m websocket = Done m' ->
    reachable m'
| reach_broadcast send_text m connections message_json m' :
    reachable m ->
    (WebsocketManager.broadcast_to_pool send_text m connections
       message_json).1 = Done m' ->
    reachable m'.

(** Two clients, the first on the price stream and the second on the
    alert stream. *)
Definition two_clients : ConnectionManager :=
  manager_of (WebsocketManager.connect
    (manager_of (WebsocketManager.connect WebsocketManager.init 1%nat "prices"))
    2%nat "alerts").

End WebsocketAdmin.

(** ** Upstream session ([app/binance_client.py]) *)

(** How the transport of one session ends: the message loop finishes (the
    stream ends or a stop is seen), or [websockets.connect] or the loop
    raises one of the exceptions that [_connect_and_listen] names, or
    another [Exception]. *)
Inductive transport :=
| StreamEnded
| ConnectionClosed
| WebSocketException
| TimeoutError
| OtherException.

(** How a call of [_connect_and_listen] ends for [start]. *)
Inductive listen_result := Returned | Raised.

Module BinanceClient.

(** [self.reconnect_delay] and [max_reconnect_delay] of [start], seconds. *)
Definition reconnect_delay : Z := 5.
Definition max_reconnect_delay : Z := 60.

(** [_build_stream_url] raises [ValueError] without symbols; the URL itself
    is not modelled. *)
Definition _build_stream_url (symbols : gset string) : option unit :=
  if decide (symbols = ∅) then None else Some tt.

(** [_connect_and_listen]: the URL is built outside the [try]; every
    exception of the transport is caught and logged inside it. *)
Definition _connect_and_listen (symbols : gset string) (t : transport)
    : listen_result :=
  match _build_stream_url symbols with
  | None => Raised
  | Some _ =>
      match t with
      | StreamEnded | ConnectionClosed | WebSocketException
      | TimeoutError | OtherException => Returned
      end
  end.

(** The loop of [start], one iteration per session after which
    [self.is_running] still holds; the result lists the delays passed to
    [asyncio.sleep]. *)
Fixpoint start_loop (symbols : gset string) (reconnect_attempt : Z)
    (sessions : list transport) : list Z :=
  match sessions with
  | [] => []
  | t :: rest =>
      let reconnect_attempt :=
        match _connect_and_listen symbols t with
        | Returned => 0
        | Raised => reconnect_attempt
        end in
      let reconnect_attempt := reconnect_attempt + 1 in
      let delay :=
        Z.min (reconnect_delay * 2 ^ (reconnect_attempt - 1))
              max_reconnect_delay in
      delay :: start_loop symbols reconnect_attempt rest
  end.

(** [start] *)
Definition start (symbols : gset string) (sessions : list transport)
    : list Z :=
  start_loop symbols 0 sessions.

End BinanceClient.

(** Splits [engine_ok] into its four parts. *)
Ltac split_ok :=
  unfold Invariants.engine_ok; split; [|split; [|split]]; simpl; try assumption.

(** * Properties *)

(** ** Tick buffer *)

Section TickBufferFacts.
Import Ingestion Samples.

Lemma tail_drop {A} (k : nat) (L : list A) : tail (drop k L) = drop (S k) L.
Proof.
  revert L. induction k as [|k IH]; intros [|y L]; simpl; done.
Qed.

Lemma deque_append_window {A} (C : Z) (L : list A) (x : A) :
  1 <= C ->
  Py.deque_append C (drop (length L - Z.to_nat C) L) x
  = drop (length (L ++ [x]) - Z.to_nat C) (L ++ [x]).
Proof.
  intros HC. unfold Py.deque_append, Py.len.
  destruct (Z.eqb_spec C 0) as [?|_]; [lia|].
  rewrite length_drop, length_app. simpl.
  destruct (Z.eqb_spec (Z.of_nat (length L - (length L - Z.to_nat C))) C) as [Hfull|Hroom].
  - assert (Hle : (Z.to_nat C <= length L)%nat) by lia.
    replace (length L + 1 - Z.to_nat C)%nat
      with (S (length L - Z.to_nat C)) by lia.
    rewrite drop_app_le by lia.
    f_equal. apply tail_drop.
  - assert (Hlt : (length L < Z.to_nat C)%nat) by lia.
    replace (length L - Z.to_nat C)%nat with 0%nat by lia.
    replace (length L + 1 - Z.to_nat C)%nat with 0%nat by lia.
    by rewrite !drop_0.
Qed.

Lemma add_ticks_snoc b l tick :
  add_ticks b (l ++ [tick]) = add_tick (add_ticks b l) tick.
Proof. unfold add_ticks. by rewrite foldl_app. Qed.

Lemma add_ticks_max_size b l : max_size (add_ticks b l) = max_size b.
Proof.
  induction l as [|x l IH] using rev_ind; [done|].
  by rewrite add_ticks_snoc.
Qed.

Lemma add_ticks_window b l :
  1 <= max_size b -> ticks b = [] ->
  ticks (add_ticks b l) = drop (length l - Z.to_nat (max_size b)) l.
Proof.
  intros HC Hempty.
  induction l as [|x l IH] using rev_ind.
  - simpl. by rewrite Hempty.
  - rewrite add_ticks_snoc. simpl.
    rewrite add_ticks_max_size, IH.
    by apply deque_append_window.
Qed.

Lemma init_capacity symbol ms b :
  init symbol ms = Some b ->
  ticks b = [] /\ max_size b = Py.int_or ms settings.TICK_BUFFER_SIZE /\
  1 <= max_size b.
Proof.
  unfold init. intros H.
  destruct (Z.ltb_spec (Py.int_or ms settings.TICK_BUFFER_SIZE) 0) as [?|Hge];
    [done|].
  inversion H; subst; clear H. simpl. repeat split.
  unfold Py.int_or, settings.TICK_BUFFER_SIZE in *.
  destruct ms as [v|]; [|lia].
  destruct (Z.eqb_spec v 0); lia.
Qed.

(** C8. After ingesting the ticks [l] (K of them) into a freshly built
    buffer of capacity C = [max_size], the buffer holds exactly the newest
    min(K, C) ticks in ingest order: its size is min(K, C), its last element
    is the most recently ingested tick, and what was evicted is the oldest
    K - min(K, C) ticks. *)
Theorem tick_buffer_keeps_newest symbol ms b (l : list TickData) :
  init symbol ms = Some b ->
  let b' := add_ticks b l in
  let C := max_size b in
  Py.len (ticks b') = Z.min (Py.len l) C /\
  last (ticks b') = last l /\
  last_tick b' = last l /\
  l = take (length l - Z.to_nat C) l ++ ticks b'.
Proof.
  intros Hinit b' C.
  destruct (init_capacity _ _ _ Hinit) as (Hempty & _ & HC).
  assert (Hw : ticks b' = drop (length l - Z.to_nat C) l)
    by (by apply add_ticks_window).
  repeat split.
  - rewrite Hw. unfold Py.len. rewrite length_drop. subst C. lia.
  - rewrite Hw. destruct l as [|x l] using rev_ind; [done|].
    rewrite length_app. simpl.
    rewrite drop_app_le by (subst C; lia).
    by rewrite !last_snoc.
  - subst b'. destruct l as [|x l] using rev_ind.
    + simpl. unfold init in Hinit.
      destruct (_ <? 0); [done|]. by inversion Hinit.
    + rewrite add_ticks_snoc. simpl. by rewrite last_snoc.
  - rewrite Hw. by rewrite take_drop.
Qed.

Lemma tick_buffer_keeps_newest_witness :
  init "BTCUSDT" (Some 2) = Some small_buffer /\
  Py.len (ticks (add_ticks small_buffer three_ticks)) = Z.min (Py.len three_ticks) 2 /\
  last (ticks (add_ticks small_buffer three_ticks)) = last three_ticks /\
  last_tick (add_ticks small_buffer three_ticks) = last three_ticks /\
  three_ticks = take (length three_ticks - Z.to_nat 2) three_ticks
                ++ ticks (add_ticks small_buffer three_ticks).
Proof.
  split; [reflexivity|].
  apply (tick_buffer_keeps_newest "BTCUSDT" (Some 2) small_buffer three_ticks).
  reflexivity.
Defined.

End TickBufferFacts.

(** ** Archival of bars *)

Section ArchiveFacts.
Import Resampling.

(** The list stored for a symbol once [stored_bar] has gone through the
    archival block. *)
Lemma archive_lookup maxb (bars : gmap string (list Bar)) symbol stored_bar :
  archive maxb bars symbol stored_bar !! symbol
  = Some (let l := default [] (bars !! symbol) in
          if _bar_exists l (bar_timestamp stored_bar) then l
          else trim maxb (l ++ [stored_bar])).
Proof.
  unfold archive. destruct (bars !! symbol) as [l|] eqn:Hl; simpl.
  - rewrite Hl. simpl. destruct (_bar_exists _ _); [done|].
    by rewrite lookup_insert_eq.
  - rewrite lookup_insert_eq. simpl. by rewrite lookup_insert_eq.
Qed.

Lemma archive_lookup_ne maxb (bars : gmap string (list Bar)) symbol other stored_bar :
  symbol ≠ other ->
  archive maxb bars symbol stored_bar !! other = bars !! other.
Proof.
  intros Hne. unfold archive.
  destruct (bars !! symbol) as [l|] eqn:Hl; simpl.
  - rewrite Hl. simpl. destruct (_bar_exists _ _); [done|].
    by rewrite lookup_insert_ne.
  - rewrite lookup_insert_eq. simpl.
    by rewrite !lookup_insert_ne.
Qed.

Lemma bar_exists_true l ts :
  _bar_exists l ts = true <-> exists b, b ∈ l /\ bar_timestamp b = ts.
Proof.
  unfold _bar_exists. rewrite existsb_exists. split.
  - intros (b & Hb & Heq). apply bool_decide_eq_true in Heq.
    exists b. split; [by apply list_elem_of_In|done].
  - intros (b & Hb & Heq). exists b. split; [by apply list_elem_of_In|].
    by apply bool_decide_eq_true.
Qed.

End ArchiveFacts.

(** ** Minute-bar finalizer *)

Section FinalizerFacts.
Import Resampling MinuteBarFinalizer.

Lemma finalize_current e a symbol :
  current_minute_bar (_finalize_bar e a) !! symbol
  = if decide (symbol = a) then None else current_minute_bar e !! symbol.
Proof.
  unfold _finalize_bar. destruct (current_minute_bar e !! a) as [bar|] eqn:Ha; simpl.
  - destruct (decide (symbol = a)) as [->|Hne].
    + by rewrite lookup_delete_eq.
    + by rewrite lookup_delete_ne.
  - destruct (decide (symbol = a)) as [->|Hne]; done.
Qed.

Lemma finalize_history e a symbol :
  minute_bars (_finalize_bar e a) !! symbol
  = if decide (symbol = a) then finalized_history e symbol
    else minute_bars e !! symbol.
Proof.
  unfold _finalize_bar, finalized_history.
  destruct (decide (symbol = a)) as [->|Hne].
  - by destruct (current_minute_bar e !! a).
  - destruct (current_minute_bar e !! a); simpl; [|done].
    by rewrite archive_lookup_ne.
Qed.

Lemma finalize_max e a :
  max_bars_per_symbol (_finalize_bar e a) = max_bars_per_symbol e.
Proof. unfold _finalize_bar. by destruct (current_minute_bar e !! a). Qed.

Lemma finalized_history_finalize e a symbol :
  finalized_history (_finalize_bar e a) symbol = finalized_history e symbol.
Proof.
  unfold finalized_history at 1.
  rewrite finalize_current, finalize_history, finalize_max.
  destruct (decide (symbol = a)) as [->|Hne]; [done|].
  unfold finalized_history.
  destruct (current_minute_bar e !! symbol) as [bar|]; [|done].
  rewrite !archive_lookup, finalize_history. by case_decide.
Qed.

Lemma finalize_all_current l : forall e symbol,
  current_minute_bar (foldl _finalize_bar e l) !! symbol
  = if decide (symbol ∈ l) then None else current_minute_bar e !! symbol.
Proof.
  induction l as [|a l IH]; intros e symbol; simpl.
  - done.
  - rewrite IH, finalize_current.
    destruct (decide (symbol ∈ a :: l)) as [Hin|Hnin].
    + apply elem_of_cons in Hin as [->|Hin].
      * rewrite (decide_True (P := a = a)) by done. by case_decide.
      * by rewrite (decide_True (P := symbol ∈ l)) by done.
    + apply not_elem_of_cons in Hnin as [Hne Hnin].
      by rewrite !decide_False by done.
Qed.

Lemma finalize_all_history l : forall e symbol,
  minute_bars (foldl _finalize_bar e l) !! symbol
  = if decide (symbol ∈ l) then finalized_history e symbol
    else minute_bars e !! symbol.
Proof.
  induction l as [|a l IH]; intros e symbol; simpl.
  - done.
  - rewrite IH, finalized_history_finalize, finalize_history.
    destruct (decide (symbol ∈ a :: l)) as [Hin|Hnin].
    + apply elem_of_cons in Hin as [->|Hin].
      * rewrite (decide_True (P := a = a)) by done. by case_decide.
      * by rewrite (decide_True (P := symbol ∈ l)) by done.
    + apply not_elem_of_cons in Hnin as [Hne Hnin].
      by rewrite !decide_False by done.
Qed.

Lemma symbols_to_finalize_spec (m : gmap string Bar) W symbol :
  symbol ∈ (filter (fun sb => due W sb.2 = true) (map_to_list m)).*1
  <-> exists bar, m !! symbol = Some bar /\ due W bar = true.
Proof.
  rewrite list_elem_of_fmap. split.
  - intros [[s bar] [-> Hin]]. apply list_elem_of_filter in Hin as [Hdue Hin].
    apply elem_of_map_to_list in Hin. by exists bar.
  - intros (bar & Hm & Hdue). exists (symbol, bar). split; [done|].
    apply list_elem_of_filter. split; [done|]. by apply elem_of_map_to_list.
Qed.

Lemma due_spec W B :
  due W B = true <->
  bar_timestamp B < Instant.floor_minute W - Instant.us_per_minute \/
  (bar_timestamp B = Instant.floor_minute W - Instant.us_per_minute /\
   Instant.second_of W > 5).
Proof.
  unfold due. repeat case_decide; rewrite ?bool_decide_eq_true;
    intuition (try lia; try discriminate).
Qed.

(** C3. At a wall-clock check W the finalizer finalizes the current minute
    bar B of a symbol exactly when B.bucket-start < floor(W,1m) - 1m, or
    B.bucket-start = floor(W,1m) - 1m and the seconds part of W exceeds 5.
    Finalizing removes the symbol's current bar and appends B to the
    symbol's finalized minute history iff that history holds no bar with
    B's bucket-start: when one is there the history stays as it is, when
    none is there the history becomes itself followed by B (cut to its
    newest [max_bars_per_symbol] bars when longer).  A bar that is not due
    stays current and its history is left as it was. *)
Theorem finalizer_check_and_finalize (e : ResamplingEngine) (W : Z)
    (symbol : string) (B : Bar) :
  current_minute_bar e !! symbol = Some B ->
  let e' := _check_and_finalize e W in
  let history := default [] (minute_bars e !! symbol) in
  let cap := max_bars_per_symbol e in
  let is_due :=
    bar_timestamp B < Instant.floor_minute W - Instant.us_per_minute \/
    (bar_timestamp B = Instant.floor_minute W - Instant.us_per_minute /\
     Instant.second_of W > 5) in
  let present :=
    exists b, b ∈ history /\ bar_timestamp b = bar_timestamp B in
  (is_due ->
     current_minute_bar e' !! symbol = None /\
     (present -> minute_bars e' !! symbol = Some history) /\
     (~ present ->
        minute_bars e' !! symbol =
          Some (if Py.len (history ++ [B]) >? cap
                then Py.slice_from (history ++ [B]) (- cap)
                else history ++ [B]))) /\
  (~ is_due ->
     current_minute_bar e' !! symbol = Some B /\
     minute_bars e' !! symbol = minute_bars e !! symbol).
Proof.
  intros HB e' history cap is_due present. subst e'.
  unfold _check_and_finalize.
  rewrite finalize_all_current, finalize_all_history.
  split; intros Hdue.
  - assert (Hin : symbol ∈ (filter (fun sb => due W sb.2 = true)
                              (map_to_list (current_minute_bar e))).*1).
    { apply symbols_to_finalize_spec. exists B. split; [done|].
      by apply due_spec. }
    rewrite !decide_True by done. split; [done|].
    unfold finalized_history. rewrite HB, archive_lookup. simpl.
    fold history.
    destruct (_bar_exists history (bar_timestamp B)) eqn:Hex.
    + split; [done|]. intros Hn. exfalso. apply Hn.
      by apply bar_exists_true.
    + split; [|done]. intros Hp. apply bar_exists_true in Hp. congruence.
  - assert (Hin : symbol ∉ (filter (fun sb => due W sb.2 = true)
                              (map_to_list (current_minute_bar e))).*1).
    { intros (bar & Hbar & Hd)%symbols_to_finalize_spec.
      apply Hdue. apply due_spec. congruence. }
    by rewrite !decide_False by done.
Qed.

Lemma finalizer_check_and_finalize_witness :
  (current_minute_bar Samples.scenario2 !! "BTCUSDT" = Some Samples.bar_0901 /\
   minute_bars Samples.scenario2 !! "BTCUSDT" = Some [Samples.bar_0900] /\
   current_minute_bar (_check_and_finalize Samples.scenario2 (Instant.hms 9 2 6))
     !! "BTCUSDT" = None /\
   minute_bars (_check_and_finalize Samples.scenario2 (Instant.hms 9 2 6))
     !! "BTCUSDT" = Some [Samples.bar_0900; Samples.bar_0901]) /\
  (current_minute_bar Samples.reopened_minute !! "BTCUSDT"
     = Some Samples.bar_0900_again /\
   minute_bars Samples.reopened_minute !! "BTCUSDT"
     = Some [Samples.bar_0900_early] /\
   bar_timestamp Samples.bar_0900_early = bar_timestamp Samples.bar_0900_again /\
   current_minute_bar
     (_check_and_finalize Samples.reopened_minute (Instant.hms 9 3 0))
     !! "BTCUSDT" = None /\
   minute_bars
     (_check_and_finalize Samples.reopened_minute (Instant.hms 9 3 0))
     !! "BTCUSDT" = Some [Samples.bar_0900_early]).
Proof.
  assert (H0 : current_minute_bar Samples.scenario2 !! "BTCUSDT"
               = Some Samples.bar_0901) by (vm_compute; reflexivity).
  assert (M0 : minute_bars Samples.scenario2 !! "BTCUSDT"
               = Some [Samples.bar_0900]) by (vm_compute; reflexivity).
  assert (H1 : current_minute_bar Samples.reopened_minute !! "BTCUSDT"
               = Some Samples.bar_0900_again) by (vm_compute; reflexivity).
  assert (M1 : minute_bars Samples.reopened_minute !! "BTCUSDT"
               = Some [Samples.bar_0900_early]) by (vm_compute; reflexivity).
  split.
  - split; [exact H0|]. split; [exact M0|].
    destruct (finalizer_check_and_finalize Samples.scenario2
                (Instant.hms 9 2 6) "BTCUSDT" Samples.bar_0901 H0)
      as [Hdue _].
    destruct Hdue as (Hc & _ & Hm).
    + right. split; vm_compute; reflexivity.
    + split; [exact Hc|]. rewrite Hm.
      * rewrite M0. vm_compute. reflexivity.
      * rewrite M0. simpl. intros (b & Hb & Hts).
        apply list_elem_of_singleton in Hb. subst b. vm_compute in Hts.
        discriminate Hts.
  - split; [exact H1|]. split; [exact M1|]. split; [reflexivity|].
    destruct (finalizer_check_and_finalize Samples.reopened_minute
                (Instant.hms 9 3 0) "BTCUSDT" Samples.bar_0900_again H1)
      as [Hdue _].
    destruct Hdue as (Hc & Hm & _).
    + left. vm_compute. reflexivity.
    + split; [exact Hc|]. rewrite Hm.
      * by rewrite M1.
      * rewrite M1. simpl. exists Samples.bar_0900_early.
        split; [by apply list_elem_of_singleton|reflexivity].
Defined.

End FinalizerFacts.

(** ** Late ticks *)

Section LateTickFacts.
Import Resampling Samples.

(** After the bar of 09:01 has been opened, a tick of 09:00:40 changes
    the current 1-minute bar, and it replaces the current 1-second bar and
    lengthens the 1-second history. *)
Lemma late_tick_not_dropped :
  let tau := tick_timestamp late_tick in
  let e1 := _process_minute_bar scenario2 late_tick "BTCUSDT" tau in
  let e2 := _process_second_bar scenario2 late_tick "BTCUSDT" tau in
  (current_minute_bar scenario2 !! "BTCUSDT" = Some bar_0901 /\
   Instant.floor_minute tau < bar_timestamp bar_0901 /\
   current_minute_bar e1 !! "BTCUSDT" <> current_minute_bar scenario2 !! "BTCUSDT") /\
  (current_second_bar scenario2 !! "BTCUSDT" = Some bar_090105_1s /\
   Instant.floor_second tau < bar_timestamp bar_090105_1s /\
   current_second_bar e2 !! "BTCUSDT" <> current_second_bar scenario2 !! "BTCUSDT" /\
   second_bars e2 !! "BTCUSDT" <> second_bars scenario2 !! "BTCUSDT").
Proof.
  repeat split; try (vm_compute; reflexivity);
    vm_compute; intros [=].
Qed.

(** C1 fails on the code: a late tick is never dropped.  On the 1-minute
    interval the tick of an earlier minute is folded into the current bar
    of the later minute: that bar keeps its bucket-start and open, its high
    and low are widened by the tick's price, its close becomes the tick's
    price and its volume grows by the tick's quantity, so the bar changes
    whenever the quantity is not zero; the finalized minute history and the
    other symbols' bars are untouched.  On the 1-second interval the tick
    is handled like a tick of any other second: the current bar B goes to
    the finalized history (appended iff no bar with its bucket-start is
    there, the history cut to its newest [max_bars_per_symbol] bars) and
    the current bar becomes a fresh bar at the tick's own second. *)
Theorem late_tick_handling (e : ResamplingEngine) (tick : TickData)
    (symbol : string) (B : Bar) (tau : Z) :
  (current_minute_bar e !! symbol = Some B ->
   Instant.floor_minute tau < bar_timestamp B ->
   let e' := _process_minute_bar e tick symbol tau in
   minute_bars e' = minute_bars e /\
   (forall other, other <> symbol ->
      current_minute_bar e' !! other = current_minute_bar e !! other) /\
   exists B',
     current_minute_bar e' !! symbol = Some B' /\
     bar_timestamp B' = bar_timestamp B /\
     bar_open B' = bar_open B /\
     bar_high B' = Py.max (bar_high B) (tick_price tick) /\
     bar_low B' = Py.min (bar_low B) (tick_price tick) /\
     bar_close B' = tick_price tick /\
     bar_volume B' = (bar_volume B + tick_qty tick)%Q /\
     (~ (tick_qty tick == 0)%Q -> B' <> B)) /\
  (current_second_bar e !! symbol = Some B ->
   Instant.floor_second tau < bar_timestamp B ->
   let e' := _process_second_bar e tick symbol tau in
   let history := default [] (second_bars e !! symbol) in
   let cap := max_bars_per_symbol e in
   current_second_bar e' !! symbol =
     Some {| bar_timestamp := Instant.floor_second tau;
             bar_open := tick_price tick; bar_high := tick_price tick;
             bar_low := tick_price tick; bar_close := tick_price tick;
             bar_volume := tick_qty tick;
             bar_symbol := symbol; bar_interval := "1s" |} /\
   ((exists b, b ∈ history /\ bar_timestamp b = bar_timestamp B) ->
    second_bars e' !! symbol = Some history) /\
   (~ (exists b, b ∈ history /\ bar_timestamp b = bar_timestamp B) ->
    second_bars e' !! symbol =
      Some (if Py.len (history ++ [B]) >? cap
            then Py.slice_from (history ++ [B]) (- cap)
            else history ++ [B]))).
Proof.
  split; intros HB Hlate e'; subst e'.
  - unfold _process_minute_bar. rewrite HB.
    rewrite decide_False by lia. rewrite HB. simpl.
    split; [done|]. split.
    { intros other Hne. by rewrite lookup_insert_ne. }
    exists (update_bar B tick). rewrite lookup_insert_eq.
    repeat (split; [done|]).
    intros Hq Heq. apply Hq.
    assert (Hv : bar_volume (update_bar B tick) = bar_volume B)
      by (by rewrite Heq).
    simpl in Hv.
    assert (Hv' : (bar_volume B + tick_qty tick == bar_volume B)%Q)
      by (by rewrite Hv).
    Lqa.lra.
  - intros history cap. unfold _process_second_bar. rewrite HB.
    rewrite decide_False by lia. simpl.
    split; [by rewrite lookup_insert_eq|].
    rewrite archive_lookup. simpl. fold history.
    destruct (_bar_exists history (bar_timestamp B)) eqn:Hex.
    + split; [done|]. intros Hn. exfalso. apply Hn.
      by apply bar_exists_true.
    + split; [|done]. intros Hp. apply bar_exists_true in Hp. congruence.
Qed.

Lemma late_tick_handling_witness :
  let tau := tick_timestamp late_tick in
  (Instant.floor_minute tau = Instant.hms 9 0 0 /\
   current_minute_bar scenario2 !! "BTCUSDT" = Some bar_0901 /\
   exists B',
     current_minute_bar (_process_minute_bar scenario2 late_tick "BTCUSDT" tau)
       !! "BTCUSDT" = Some B' /\
     bar_timestamp B' = Instant.hms 9 1 0 /\
     bar_close B' = tick_price late_tick /\
     bar_volume B' = (bar_volume bar_0901 + tick_qty late_tick)%Q /\
     B' <> bar_0901) /\
  (current_second_bar scenario2 !! "BTCUSDT" = Some bar_090105_1s /\
   bar_timestamp <$>
     current_second_bar (_process_second_bar scenario2 late_tick "BTCUSDT" tau)
       !! "BTCUSDT" = Some (Instant.hms 9 0 40)).
Proof.
  intros tau.
  assert (Hm0 : current_minute_bar scenario2 !! "BTCUSDT" = Some bar_0901)
    by (vm_compute; reflexivity).
  assert (Hs0 : current_second_bar scenario2 !! "BTCUSDT" = Some bar_090105_1s)
    by (vm_compute; reflexivity).
  destruct (late_tick_handling scenario2 late_tick "BTCUSDT" bar_0901 tau)
    as [Hm _].
  destruct (late_tick_handling scenario2 late_tick "BTCUSDT" bar_090105_1s tau)
    as [_ Hs].
  split.
  - split; [vm_compute; reflexivity|]. split; [exact Hm0|].
    destruct (Hm Hm0) as (_ & _ & B' & HB' & Hts & _ & _ & _ & Hc & Hv & Hne).
    { vm_compute. reflexivity. }
    exists B'. split; [exact HB'|]. split; [exact Hts|].
    split; [exact Hc|]. split; [exact Hv|].
    apply Hne. vm_compute. discriminate.
  - split; [exact Hs0|].
    destruct (Hs Hs0) as (Hc & _).
    { vm_compute. reflexivity. }
    rewrite Hc. reflexivity.
Defined.

End LateTickFacts.

(** ** Bar invariants *)

Section BarFacts.
Import Resampling MinuteBarFinalizer Invariants.

Lemma py_max_ge a b : (a <= Py.max a b)%Q /\ (b <= Py.max a b)%Q.
Proof. unfold Py.max. destruct (Qlt_le_dec a b); split; Lqa.lra. Qed.

Lemma py_min_le a b : (Py.min a b <= a)%Q /\ (Py.min a b <= b)%Q.
Proof. unfold Py.min. destruct (Qlt_le_dec b a); split; Lqa.lra. Qed.

Lemma new_bar_ok start tick symbol interval :
  valid_tick tick -> bar_ok (new_bar start tick symbol interval).
Proof. intros [_ Hq]. unfold bar_ok; simpl. repeat split; Lqa.lra. Qed.

Lemma update_bar_ok b tick :
  valid_tick tick -> bar_ok b -> bar_ok (update_bar b tick).
Proof.
  intros [_ Hq] (H1 & H2 & H3 & H4 & H5). unfold bar_ok; simpl.
  destruct (py_max_ge (bar_high b) (tick_price tick)) as [Ha Hb].
  destruct (py_min_le (bar_low b) (tick_price tick)) as [Hc Hd].
  repeat split; Lqa.lra.
Qed.

Lemma trim_ok maxb l : Forall bar_ok l -> Forall bar_ok (trim maxb l).
Proof.
  intros H. unfold trim, Py.slice_from.
  destruct (_ >? _); [|done]. by apply Forall_drop.
Qed.

Lemma archive_ok maxb (bars : gmap string (list Bar)) symbol b :
  (forall s l, bars !! s = Some l -> Forall bar_ok l) -> bar_ok b ->
  forall s l, archive maxb bars symbol b !! s = Some l -> Forall bar_ok l.
Proof.
  intros Hbars Hb s l. destruct (decide (symbol = s)) as [->|Hne].
  - rewrite archive_lookup. intros [= <-]. simpl.
    assert (Hold : Forall bar_ok (default [] (bars !! s))).
    { destruct (bars !! s) as [l0|] eqn:E; simpl; [by eapply Hbars|done]. }
    destruct (_bar_exists _ _); [done|].
    apply trim_ok. apply Forall_app. split; [done|]. by constructor.
  - rewrite archive_lookup_ne by done. apply Hbars.
Qed.

Lemma insert_ok (m : gmap string Bar) symbol b :
  (forall s b', m !! s = Some b' -> bar_ok b') -> bar_ok b ->
  forall s b', <[symbol := b]> m !! s = Some b' -> bar_ok b'.
Proof.
  intros Hm Hb s b'. destruct (decide (symbol = s)) as [->|Hne].
  - rewrite lookup_insert_eq. by intros [= <-].
  - rewrite lookup_insert_ne by done. apply Hm.
Qed.

Lemma delete_ok (m : gmap string Bar) symbol :
  (forall s b', m !! s = Some b' -> bar_ok b') ->
  forall s b', delete symbol m !! s = Some b' -> bar_ok b'.
Proof.
  intros Hm s b'. destruct (decide (symbol = s)) as [->|Hne].
  - by rewrite lookup_delete_eq.
  - rewrite lookup_delete_ne by done. apply Hm.
Qed.

Lemma process_second_bar_ok e tick symbol tau :
  valid_tick tick -> engine_ok e ->
  engine_ok (_process_second_bar e tick symbol tau).
Proof.
  intros Hv (Hs & Hm & Hcs & Hcm). unfold _process_second_bar.
  destruct (current_second_bar e !! symbol) as [cur|] eqn:Hcur.
  - case_decide; split_ok.
    + apply insert_ok; [done|]. apply update_bar_ok; eauto.
    + apply archive_ok; eauto.
    + apply insert_ok; [done|]. by apply new_bar_ok.
  - split_ok.
    apply insert_ok; [done|]. by apply new_bar_ok.
Qed.

Lemma process_minute_bar_ok e tick symbol tau :
  valid_tick tick -> engine_ok e ->
  engine_ok (_process_minute_bar e tick symbol tau).
Proof.
  intros Hv He. unfold _process_minute_bar.
  match goal with |- context [current_minute_bar ?x !! symbol] =>
    match x with e => fail 1 | _ => set (e1 := x) end end.
  assert (He1 : engine_ok e1).
  { subst e1. destruct He as (Hs & Hm & Hcs & Hcm).
    destruct (current_minute_bar e !! symbol) as [cur|] eqn:Hcur;
      [|by split_ok].
    case_decide; [|by split_ok].
    split_ok.
    - apply archive_ok; eauto.
    - by apply delete_ok. }
  destruct He1 as (Hs & Hm & Hcs & Hcm).
  destruct (current_minute_bar e1 !! symbol) as [cur|] eqn:Hcur.
  - split_ok.
    apply insert_ok; [done|]. apply update_bar_ok; eauto.
  - split_ok.
    apply insert_ok; [done|]. by apply new_bar_ok.
Qed.

Lemma finalize_bar_ok e symbol : engine_ok e -> engine_ok (_finalize_bar e symbol).
Proof.
  intros (Hs & Hm & Hcs & Hcm). unfold _finalize_bar.
  destruct (current_minute_bar e !! symbol) as [cur|] eqn:Hcur; [|by split_ok].
  split_ok.
  - apply archive_ok; eauto.
  - by apply delete_ok.
Qed.

Lemma check_and_finalize_ok e W : engine_ok e -> engine_ok (_check_and_finalize e W).
Proof.
  unfold _check_and_finalize.
  generalize ((filter (fun sb => due W sb.2 = true)
                 (map_to_list (current_minute_bar e))).*1) as l.
  intros l. revert e. induction l as [|a l IH]; intros e He; simpl; [done|].
  apply IH. by apply finalize_bar_ok.
Qed.

Lemma reachable_ok e : reachable e -> engine_ok e.
Proof.
  induction 1 as [|e tick symbol _ IH Hv|e W _ IH].
  - split_ok; intros ? ?; by rewrite lookup_empty.
  - unfold _process_tick.
    by apply process_minute_bar_ok, process_second_bar_ok.
  - by apply check_and_finalize_ok.
Qed.

Lemma second_bucket e tick symbol tau :
  exists b, current_second_bar (_process_second_bar e tick symbol tau) !! symbol
            = Some b /\ bar_timestamp b = Instant.floor_second tau.
Proof.
  unfold _process_second_bar.
  destruct (current_second_bar e !! symbol) as [cur|] eqn:Hcur;
    [case_decide|]; simpl; rewrite lookup_insert_eq; eauto.
Qed.

Lemma minute_step_keeps_seconds e tick symbol tau :
  current_second_bar (_process_minute_bar e tick symbol tau) = current_second_bar e.
Proof.
  unfold _process_minute_bar.
  destruct (current_minute_bar e !! symbol) as [cur|] eqn:Hcur.
  - case_decide; simpl.
    + by rewrite lookup_delete_eq.
    + by rewrite Hcur.
  - by rewrite Hcur.
Qed.

Lemma second_step_keeps_minutes e tick symbol tau :
  current_minute_bar (_process_second_bar e tick symbol tau) = current_minute_bar e.
Proof.
  unfold _process_second_bar.
  destruct (current_second_bar e !! symbol); [case_decide|]; done.
Qed.

Lemma minute_bucket e tick symbol tau :
  exists b, current_minute_bar (_process_minute_bar e tick symbol tau) !! symbol
            = Some b /\
    Instant.floor_minute tau <= bar_timestamp b /\
    (~ late_for_minute e symbol tau -> bar_timestamp b = Instant.floor_minute tau).
Proof.
  unfold _process_minute_bar.
  destruct (current_minute_bar e !! symbol) as [cur|] eqn:Hcur.
  - case_decide as Hlt; simpl.
    + rewrite lookup_delete_eq. simpl. rewrite lookup_insert_eq.
      eexists. split; [done|]. simpl. split; [lia|done].
    + rewrite Hcur. simpl. rewrite lookup_insert_eq.
      eexists. split; [done|]. simpl. split; [lia|].
      intros Hnl.
      destruct (decide (Instant.floor_minute tau < bar_timestamp cur)) as [Hl|Hl];
        [|lia].
      exfalso. apply Hnl. by exists cur.
  - rewrite Hcur. simpl. rewrite lookup_insert_eq.
    eexists. split; [done|]. simpl. split; [lia|done].
Qed.

(** After the ticks of 09:00:10 to 09:01:05, a (valid) tick of 09:00:40 is
    folded into the bar whose bucket-start is 09:01:00, which is not the
    floor of its trade-time. *)
Lemma late_tick_in_later_bucket :
  reachable Samples.scenario2 /\ valid_tick Samples.late_tick /\
  current_minute_bar (_process_tick Samples.scenario2 Samples.late_tick "BTCUSDT")
    !! "BTCUSDT" = Some (update_bar Samples.bar_0901 Samples.late_tick) /\
  bar_timestamp (update_bar Samples.bar_0901 Samples.late_tick)
    <> Instant.floor_minute (tick_timestamp Samples.late_tick).
Proof.
  split; [|split; [|split]].
  - unfold Samples.scenario2, process_ticks. simpl.
    repeat (apply reach_tick; [|by split]). apply reach_init.
  - by split.
  - vm_compute. reflexivity.
  - vm_compute. intros [=].
Qed.

Lemma minute_bucket_late e tick symbol tau :
  late_for_minute e symbol tau ->
  exists b, current_minute_bar (_process_minute_bar e tick symbol tau) !! symbol
            = Some b /\
    Instant.floor_minute tau < bar_timestamp b /\
    bar_close b = tick_price tick.
Proof.
  intros (B & HB & Hlt). unfold _process_minute_bar. rewrite HB.
  rewrite decide_False by lia. rewrite HB. simpl.
  rewrite lookup_insert_eq. eexists. split; [done|]. by split.
Qed.

(** C7 fails on the code for late ticks on the 1-minute interval (the
    defect of C1).  Every bar held in a reachable state of the engine,
    current or finalized, satisfies low <= open <= high, low <= close <=
    high and volume >= 0, also after folding any further tick with positive
    price and non-negative quantity, and the 1-second bar into which a tick
    is folded has the floor of the tick's trade-time as bucket-start.  The
    1-minute bar into which a tick is folded has that floor as bucket-start
    only when the tick is not late: a tick whose minute is earlier than the
    bucket-start of the symbol's current minute bar is folded into that bar
    (its price becomes the close), whose bucket-start is strictly later
    than the floor of the tick's trade-time. *)
Theorem bars_well_formed (e : ResamplingEngine) :
  reachable e ->
  engine_ok e /\
  forall tick symbol, valid_tick tick ->
    let tau := tick_timestamp tick in
    let e' := _process_tick e tick symbol in
    engine_ok e' /\
    (exists b, current_second_bar e' !! symbol = Some b /\
               bar_timestamp b = Instant.floor_second tau) /\
    (exists b, current_minute_bar e' !! symbol = Some b /\
               Instant.floor_minute tau <= bar_timestamp b /\
               (~ late_for_minute e symbol tau ->
                bar_timestamp b = Instant.floor_minute tau)) /\
    (late_for_minute e symbol tau ->
     exists b, current_minute_bar e' !! symbol = Some b /\
               bar_close b = tick_price tick /\
               Instant.floor_minute tau < bar_timestamp b).
Proof.
  intros Hr. split; [by apply reachable_ok|].
  intros tick symbol Hv tau e'. subst e'. split; [|split; [|split]].
  - apply reachable_ok. by constructor.
  - unfold _process_tick. rewrite minute_step_keeps_seconds.
    apply second_bucket.
  - unfold _process_tick.
    destruct (minute_bucket (_process_second_bar e tick symbol tau) tick symbol tau)
      as (b & Hb & Hle & Heq).
    exists b. split; [done|]. split; [done|].
    intros Hnl. apply Heq. intros (B & HB & Hlt). apply Hnl.
    exists B. by rewrite second_step_keeps_minutes in HB.
  - intros (B & HB & Hlt). unfold _process_tick.
    destruct (minute_bucket_late (_process_second_bar e tick symbol tau)
                tick symbol tau) as (b & Hb & Hts & Hc).
    { exists B. by rewrite second_step_keeps_minutes. }
    exists b. by repeat split.
Qed.

Lemma bars_well_formed_witness :
  let tau := tick_timestamp Samples.late_tick in
  let e' := _process_tick Samples.scenario2 Samples.late_tick "BTCUSDT" in
  reachable Samples.scenario2 /\
  engine_ok Samples.scenario2 /\
  engine_ok e' /\
  Instant.floor_minute tau = Instant.hms 9 0 0 /\
  bar_timestamp <$> current_minute_bar e' !! "BTCUSDT"
    = Some (Instant.hms 9 1 0) /\
  (exists b, current_minute_bar e' !! "BTCUSDT" = Some b /\
             bar_close b = tick_price Samples.late_tick /\
             Instant.floor_minute tau < bar_timestamp b) /\
  (exists b, current_second_bar e' !! "BTCUSDT" = Some b /\
             bar_timestamp b = Instant.floor_second tau).
Proof.
  intros tau e'.
  assert (Hr : reachable Samples.scenario2).
  { unfold Samples.scenario2, process_ticks. simpl.
    repeat (apply reach_tick; [|by split]). apply reach_init. }
  split; [exact Hr|].
  destruct (bars_well_formed Samples.scenario2 Hr) as [Hok Hstep].
  split; [exact Hok|].
  destruct (Hstep Samples.late_tick "BTCUSDT") as (Hok' & Hsec & _ & Hlate);
    [by split|].
  split; [exact Hok'|].
  split; [vm_compute; reflexivity|].
  split; [vm_compute; reflexivity|].
  split; [|exact Hsec].
  apply Hlate. exists Samples.bar_0901.
  split; vm_compute; reflexivity.
Defined.

End BarFacts.

(** ** Alert rules and queries *)

Section AlertRuleFacts.
Import Alerts Samples.

(** C2 fails on the code.  With z = 1.8 and threshold 2.0 (so that
    0.8*threshold < |z| <= threshold), [evaluate_summary_alerts] creates no
    alert at all and leaves the manager as it was, although
    [evaluate_zscore_alert], called directly on the same values, creates the
    warning with metric z_score and threshold 0.8*threshold. *)
Lemma summary_never_warns_on_approach :
  evaluate_summary_alerts manager0 (clock_at (Instant.hms 9 0 0) "id-1")
    (clock_at (Instant.hms 9 0 0) "id-2") (clock_at (Instant.hms 9 0 0) "id-3")
    quiet_summary 2 = Ret manager0 tt /\
  alerts (state_of (evaluate_zscore_alert manager0
                      (clock_at (Instant.hms 9 0 0) "id-1") (18 # 10) 2))
  = [approach_warning].
Proof. split; vm_compute; reflexivity. Qed.

(** Whenever |z| <= threshold the z-score rule is skipped altogether: the
    result is that of the correlation and volatility rules alone. *)
Lemma summary_skips_zscore_rule m clk_z clk_c clk_v summary threshold :
  (Qabs (zScore summary) <= threshold)%Q ->
  evaluate_summary_alerts m clk_z clk_c clk_v summary threshold
  = bind (evaluate_correlation_alert m clk_c (correlation summary) (5 # 10))
      (fun m _ => evaluate_volatility_alert m clk_v (rollingVolatility summary) 500).
Proof.
  intros Hle. unfold evaluate_summary_alerts.
  destruct (Qlt_le_dec threshold (Qabs (zScore summary))) as [Hlt|_]; [|done].
  exfalso. Lqa.lra.
Qed.

(** C10, as stated, fails: a negative limit is truthy and truncates as
    well.  With two retained alerts, limit = -1 returns only the newest. *)
Lemma negative_limit_truncates :
  get_active_alerts manager2 (Some (-1)) = [text_alert "new"] /\
  get_active_alerts manager2 (Some (-1)) <> reverse (alerts manager2).
Proof. split; [vm_compute; reflexivity | vm_compute; intros [=]]. Qed.

(** C10, amended.  With limit absent or 0 the query returns every retained
    alert, newest first, not an empty list.  A strictly positive limit keeps
    the [limit] newest alerts; a negative limit -k also truncates: it drops
    the k oldest alerts. *)
Theorem get_active_alerts_limit (m : AlertManager) (limit : Z) :
  get_active_alerts m None = reverse (alerts m) /\
  get_active_alerts m (Some limit) =
    if limit =? 0 then reverse (alerts m)
    else if 0 <? limit then take (Z.to_nat limit) (reverse (alerts m))
    else take (length (alerts m) - Z.to_nat (- limit)) (reverse (alerts m)).
Proof.
  split; [done|]. unfold get_active_alerts, Py.slice_to, Py.len.
  rewrite length_reverse.
  destruct (Z.eqb_spec limit 0) as [->|Hne]; [done|].
  destruct (Z.ltb_spec 0 limit) as [Hpos|Hneg].
  - destruct (Z.ltb_spec limit 0) as [?|_]; [lia|].
    destruct (Z.le_gt_cases limit (Z.of_nat (length (alerts m)))) as [Hle|Hgt].
    + by rewrite Z.min_l by lia.
    + rewrite Z.min_r by lia. rewrite Nat2Z.id.
      rewrite !take_ge; [done| |]; rewrite length_reverse; lia.
  - destruct (Z.ltb_spec limit 0) as [_|?]; [|lia].
    f_equal. lia.
Qed.

End AlertRuleFacts.

(** ** Alert cooldown *)

Section CooldownFacts.
Import Alerts AlertTrace.

Lemma should_fire_spec m key now :
  _should_fire_alert m key now = true <->
  forall last, last_alert_time m !! key = Some last ->
               cooldown_seconds m * 1000000 <= now - last.
Proof.
  unfold _should_fire_alert, total_seconds.
  destruct (last_alert_time m !! key) as [last|].
  - unfold Qle_bool. simpl. rewrite Z.leb_le. split.
    + intros H ? [= <-]. lia.
    + intros H. specialize (H last eq_refl). lia.
  - split; [by intros _ ? ?|done].
Qed.

Lemma deque_append_len {A} (maxlen : Z) (d : list A) (x : A) :
  1 <= maxlen -> Py.len d <= maxlen ->
  Py.len (Py.deque_append maxlen d x) <= maxlen.
Proof.
  unfold Py.deque_append, Py.len. intros H1 H2.
  destruct (Z.eqb_spec maxlen 0); [lia|].
  destruct (Z.eqb_spec (Z.of_nat (length d)) maxlen).
  - rewrite length_app. simpl. destruct d; simpl in *; lia.
  - rewrite length_app. simpl. lia.
Qed.

Lemma do_call_cases m c :
  (do_call m c = Ret m None /\
   _should_fire_alert m (c_key c) (now_check (c_clk c)) = false) \/
  (exists err, do_call m c = Raise m err) \/
  (exists m' a, do_call m c = Ret m' (Some a) /\
     _should_fire_alert m (c_key c) (now_check (c_clk c)) = true /\
     max_alerts m' = max_alerts m /\ cooldown_seconds m' = cooldown_seconds m /\
     alerts m' = Py.deque_append (max_alerts m) (alerts m) a /\
     last_alert_time m' = <[c_key c := now_fire (c_clk c)]> (last_alert_time m)).
Proof.
  unfold do_call, create_alert. fold (c_key c).
  destruct (_should_fire_alert m (c_key c) (now_check (c_clk c))); simpl.
  - destruct (valid_type (c_type c)); simpl.
    + right; right. eexists _, _. by repeat split.
    + right; left. by eexists.
  - by left.
Qed.

Lemma run_calls_invariant cs : forall m log,
  consistent m log -> separated (cooldown_seconds m) log ->
  consistent (run_calls m cs log).1 (run_calls m cs log).2 /\
  separated (cooldown_seconds m) (run_calls m cs log).2 /\
  cooldown_seconds (run_calls m cs log).1 = cooldown_seconds m.
Proof.
  induction cs as [|c cs IH]; intros m log Hc Hs; simpl; [done|].
  destruct (do_call_cases m c) as [[-> _]|[[err ->]|(m' & a & -> & Hfire & Hmax & Hcd & Hal & Hreg)]].
  - by apply IH.
  - by apply IH.
  - destruct Hc as (Hlast & H1 & Hlen).
    rewrite <- Hcd.
    assert (Hc' : consistent m'
              (mkEmission (c_key c) (now_check (c_clk c)) (now_fire (c_clk c)) :: log)).
    { split; [|split].
      - intros k. rewrite Hreg. simpl.
        destruct (decide (c_key c = k)) as [->|Hne].
        + by rewrite lookup_insert_eq.
        + by rewrite lookup_insert_ne.
      - lia.
      - rewrite Hal, Hmax. by apply deque_append_len. }
    apply IH; [done|]. simpl. split; [|by rewrite Hcd].
    rewrite <- Hlast. rewrite Hcd.
    destruct (last_alert_time m !! c_key c) as [previous|] eqn:Hprev; [|done].
    by apply (proj1 (should_fire_spec _ _ _) Hfire).
Qed.

Lemma init_consistent ma cd m0 : init ma cd = Some m0 -> consistent m0 [].
Proof.
  unfold init. destruct (Z.ltb_spec (Py.int_or ma settings.MAX_ALERTS) 0) as [|Hge];
    [done|].
  intros [= <-]. split; [|split]; simpl.
  - intros k. by rewrite lookup_empty.
  - unfold Py.int_or, settings.MAX_ALERTS in *.
    destruct ma as [v|]; [|lia]. destruct (Z.eqb_spec v 0); lia.
  - unfold Py.len. simpl. unfold Py.int_or, settings.MAX_ALERTS in *.
    destruct ma as [v|]; [|lia]. destruct (Z.eqb_spec v 0); lia.
Qed.

Lemma run_calls_log (total : list call) cs : forall m log,
  cs ⊆ total ->
  Forall (fun em => exists c', c' ∈ total /\ em_key em = c_key c' /\
                      em_check em = now_check (c_clk c') /\
                      em_fire em = now_fire (c_clk c')) log ->
  Forall (fun em => exists c', c' ∈ total /\ em_key em = c_key c' /\
                      em_check em = now_check (c_clk c') /\
                      em_fire em = now_fire (c_clk c')) (run_calls m cs log).2.
Proof.
  induction cs as [|c cs IH]; intros m log Hsub Hlog; simpl; [done|].
  assert (Hc : c ∈ total) by (apply Hsub; by left).
  assert (Hcs : cs ⊆ total) by (intros x Hx; apply Hsub; by right).
  destruct (do_call m c) as [m' [a|]|m' err]; apply IH; try done.
  apply Forall_cons. split; [|done]. by exists c.
Qed.

(** C5.  The key of a call is the text kind:title:symbol (symbol printed
    as None when absent).  Run any sequence of [create_alert] calls on a
    freshly built manager.  (1) Every emission belongs to one of the calls
    and carries that call's key, and was checked at least
    [cooldown_seconds] after the fire time of the previous emission with
    the same key.  For a further call with key K in the state reached:
    (2) if the cooldown has not elapsed since the fire time recorded for
    K, the call returns nothing and leaves the manager (ring and registry)
    as it is; (3) if nothing is recorded for K, whatever is recorded for
    other keys, a call of a valid kind emits; (4) if it emits, the ring is
    the old one (without its oldest alert when it was full) followed by
    exactly the new alert, the registry is the old one with the entry of K
    set to the fire time, and the cooldown of K had elapsed.  With no
    explicit cooldown the default of 60 seconds applies. *)
Theorem alert_cooldown (ma cd : option Z) (m0 : AlertManager)
    (cs : list call) (c : call) :
  init ma cd = Some m0 ->
  let m := (run_calls m0 cs []).1 in
  let log := (run_calls m0 cs []).2 in
  let K := (c_type c ++ ":" ++ c_title c ++ ":" ++
            match c_symbol c with Some s => s | None => "None" end)%string in
  (cd = None -> cooldown_seconds m = 60) /\
  separated (cooldown_seconds m) log /\
  Forall (fun em => exists c',
            c' ∈ cs /\
            em_key em = (c_type c' ++ ":" ++ c_title c' ++ ":" ++
                         match c_symbol c' with
                         | Some s => s
                         | None => "None"
                         end)%string /\
            em_check em = now_check (c_clk c') /\
            em_fire em = now_fire (c_clk c')) log /\
  (forall last, last_alert_time m !! K = Some last ->
     now_check (c_clk c) - last < cooldown_seconds m * 1000000 ->
     do_call m c = Ret m None) /\
  (last_alert_time m !! K = None -> valid_type (c_type c) = true ->
     exists m' a, do_call m c = Ret m' (Some a)) /\
  (forall m' a, do_call m c = Ret m' (Some a) ->
     alerts m' =
       (if Py.len (alerts m) =? max_alerts m then tail (alerts m) else alerts m)
       ++ [a] /\
     last_alert_time m' = <[K := now_fire (c_clk c)]> (last_alert_time m) /\
     forall last, last_alert_time m !! K = Some last ->
       cooldown_seconds m * 1000000 <= now_check (c_clk c) - last).
Proof.
  intros Hinit m log K.
  assert (HK : K = c_key c) by reflexivity. clearbody K. subst K.
  pose proof (init_consistent _ _ _ Hinit) as Hc0.
  destruct (run_calls_invariant cs m0 [] Hc0 I) as (Hc & Hs & Hcd).
  fold m in Hc, Hcd. fold log in Hc, Hs.
  split; [|split; [|split; [|split; [|split]]]].
  - intros ->. rewrite Hcd. unfold init in Hinit.
    destruct (_ <? 0); [done|]. by inversion Hinit.
  - by rewrite Hcd.
  - apply (run_calls_log cs cs m0 []); [done|by apply Forall_nil].
  - intros last Hlast Hearly.
    destruct (do_call_cases m c) as [[-> _]|[[err Hr]|(m' & a & Hr & Hfire & _)]];
      [done| |].
    + unfold do_call, create_alert in Hr. fold (c_key c) in Hr.
      destruct (_should_fire_alert m (c_key c) (now_check (c_clk c))) eqn:Hf;
        simpl in Hr; [|done].
      pose proof (proj1 (should_fire_spec _ _ _) Hf last Hlast). lia.
    + pose proof (proj1 (should_fire_spec _ _ _) Hfire last Hlast). lia.
  - intros Hnone Hvalid. unfold do_call, create_alert. fold (c_key c).
    unfold _should_fire_alert. rewrite Hnone, Hvalid. simpl. by eexists _, _.
  - intros m' a Hr.
    destruct (do_call_cases m c) as [[Hr' _]|[[err Hr']|(m2 & a2 & Hr' & Hfire & _ & _ & Hal & Hreg)]];
      rewrite Hr' in Hr; try done.
    injection Hr as <- <-.
    split; [|split; [done|]].
    + rewrite Hal. unfold Py.deque_append.
      destruct Hc as (_ & H1 & _).
      destruct (Z.eqb_spec (max_alerts m) 0); [lia|].
      by destruct (Py.len (alerts m) =? max_alerts m).
    + by apply should_fire_spec.
Qed.

Lemma alert_cooldown_witness :
  init None None = Some Samples.manager0 /\
  let m := (run_calls Samples.manager0
              [Samples.breach_call 0 "a"; Samples.breach_call 30000000 "b"] []).1 in
  last_alert_time m = {["ALERT:Z-Score Threshold Breach:None" := 0]} /\
  do_call m (Samples.breach_call 59000000 "c") = Ret m None /\
  (exists m' a,
     do_call m (Samples.low_correlation_call 1000000 "e") = Ret m' (Some a) /\
     last_alert_time m' =
       <["warning:Low Correlation Detected:BTCUSDT" := 1000000]>
         (last_alert_time m)) /\
  exists m' a, do_call m (Samples.breach_call 61000000 "d") = Ret m' (Some a) /\
               alerts m' = alerts m ++ [a].
Proof.
  split; [reflexivity|]. intros m.
  destruct (alert_cooldown None None Samples.manager0
              [Samples.breach_call 0 "a"; Samples.breach_call 30000000 "b"]
              (Samples.breach_call 59000000 "c") eq_refl)
    as (_ & _ & _ & Hearly & _ & _).
  destruct (alert_cooldown None None Samples.manager0
              [Samples.breach_call 0 "a"; Samples.breach_call 30000000 "b"]
              (Samples.low_correlation_call 1000000 "e") eq_refl)
    as (_ & _ & _ & _ & Hother & Hreg).
  destruct (alert_cooldown None None Samples.manager0
              [Samples.breach_call 0 "a"; Samples.breach_call 30000000 "b"]
              (Samples.breach_call 61000000 "d") eq_refl)
    as (_ & _ & _ & _ & _ & Hemit).
  split; [vm_compute; reflexivity|]. split; [|split].
  - apply (Hearly 0); vm_compute; reflexivity.
  - destruct Hother as (m' & a & Hrun); [vm_compute; reflexivity..|].
    exists m', a. split; [exact Hrun|].
    destruct (Hreg m' a Hrun) as (_ & Hl & _). exact Hl.
  - eexists _, _. split; [vm_compute; reflexivity|].
    vm_compute. reflexivity.
Defined.

End CooldownFacts.

(** ** Broadcast fan-out *)

Section BroadcastFacts.
Import WebsocketManager.

Lemma fan_out_delivered send frame (l : list nat) (c : nat) :
  (c, frame) ∈ (fan_out send l frame).1 <-> c ∈ l /\ send c frame = SendOk.
Proof.
  induction l as [|a l IH]; simpl.
  - split; [intros H|intros [H _]]; by apply elem_of_nil in H.
  - destruct (fan_out send l frame) as [delivered failed]. simpl in IH.
    destruct (send a frame) eqn:Ha; simpl;
      rewrite ?(elem_of_cons delivered), IH, (elem_of_cons l).
    + split.
      * intros [Heq|[H1 H2]]; [injection Heq as ->|]; split; auto.
      * intros [[->|H1] H2]; [by left|right; by split].
    + split; [intros [H1 H2]; by auto|].
      intros [[->|H1] H2]; [congruence|by split].
    + split; [intros [H1 H2]; by auto|].
      intros [[->|H1] H2]; [congruence|by split].
Qed.

Lemma fan_out_failed send frame (l : list nat) (c : nat) :
  c ∈ (fan_out send l frame).2 <-> c ∈ l /\ send c frame <> SendOk.
Proof.
  induction l as [|a l IH]; simpl.
  - split; [intros H|intros [H _]]; by apply elem_of_nil in H.
  - destruct (fan_out send l frame) as [delivered failed]. simpl in IH.
    destruct (send a frame) eqn:Ha; simpl;
      rewrite ?(elem_of_cons failed), IH, (elem_of_cons l).
    + split; [intros [H1 H2]; by auto|].
      intros [[->|H1] H2]; [congruence|by split].
    + split.
      * intros [->|[H1 H2]]; split; auto; congruence.
      * intros [[->|H1] H2]; [by left|right; by split].
    + split.
      * intros [->|[H1 H2]]; split; auto; congruence.
      * intros [[->|H1] H2]; [by left|right; by split].
Qed.

Lemma disconnect_all_blocked m conn rest :
  lock m = true -> disconnect_all m (conn :: rest) = Blocked m.
Proof. intros Hl. simpl. unfold disconnect, with_lock. by rewrite Hl. Qed.

(** C9 fails on the code.  When the send to some subscriber of the pool
    fails, the frame is still delivered to every subscriber whose send
    succeeds, but the clean-up takes [self.lock] and then calls
    [disconnect], which waits for the same lock: the coroutine never
    finishes, the lock stays held and no subscriber is removed from any
    pool. *)
Theorem broadcast_blocks_on_failure (send : nat -> string -> send_result)
    (m : ConnectionManager) (pool : gset nat) (frame : string) (conn : nat) :
  lock m = false -> conn ∈ pool -> send conn frame <> SendOk ->
  (broadcast_to_pool send m pool frame).1 = Blocked (set_lock true m) /\
  forall c, (c, frame) ∈ (broadcast_to_pool send m pool frame).2 <->
            c ∈ pool /\ send c frame = SendOk.
Proof.
  intros Hlock Hin Hfail. unfold broadcast_to_pool.
  destruct (decide (pool = ∅)) as [->|Hne]; [set_solver|].
  pose proof (fan_out_delivered send frame (elements pool)) as Hd.
  pose proof (fan_out_failed send frame (elements pool)) as Hf.
  destruct (fan_out send (elements pool) frame) as [delivered failed] eqn:Hfo.
  simpl in Hd, Hf.
  assert (Hcf : conn ∈ failed).
  { apply Hf. split; [by apply elem_of_elements|done]. }
  destruct (decide (list_to_set failed = (∅ : gset nat))) as [Hempty|Hne'].
  { exfalso. assert (conn ∈ (list_to_set failed : gset nat))
      by (by apply elem_of_list_to_set).
    rewrite Hempty in H. set_solver. }
  simpl. split.
  - unfold with_lock. rewrite Hlock.
    destruct (elements (list_to_set failed : gset nat)) as [|x rest] eqn:Hel.
    { exfalso. apply Hne'. apply leibniz_equiv. by apply elements_empty_inv. }
    by rewrite disconnect_all_blocked.
  - intros c. rewrite Hd. by rewrite elem_of_elements.
Qed.

Lemma broadcast_blocks_on_failure_witness :
  lock Samples.two_subscribers = false /\
  (1%nat ∈ analytics_connections Samples.two_subscribers) /\
  Samples.first_send_raises 1 "frame" <> SendOk /\
  (broadcast_to_pool Samples.first_send_raises Samples.two_subscribers
     (analytics_connections Samples.two_subscribers) "frame").1
  = Blocked (set_lock true Samples.two_subscribers) /\
  ((2%nat, "frame") ∈
     (broadcast_to_pool Samples.first_send_raises Samples.two_subscribers
        (analytics_connections Samples.two_subscribers) "frame").2) /\
  analytics_connections (set_lock true Samples.two_subscribers) = {[1%nat; 2%nat]}.
Proof.
  assert (H1 : 1%nat ∈ analytics_connections Samples.two_subscribers)
    by (simpl; set_solver).
  assert (H2 : Samples.first_send_raises 1 "frame" <> SendOk) by done.
  destruct (broadcast_blocks_on_failure Samples.first_send_raises
              Samples.two_subscribers
              (analytics_connections Samples.two_subscribers) "frame" 1%nat
              eq_refl H1 H2) as [Hb Hd].
  repeat split; try done.
  apply Hd. split; [simpl; set_solver|done].
Defined.

End BroadcastFacts.

(** ** Aligned price history *)

Section PriceHistoryFacts.
Import Resampling.

(** On an engine that holds bars under a symbol named "timestamp", which
    the tick source cannot produce because it puts every symbol in upper
    case, the close price lands on the row's own "timestamp" key: the row
    carries the price 100 where the bucket-start 09:00:00 should be. *)
Lemma row_timestamp_overwritten :
  d_timestamp <$> get_bars Samples.engine_with_timestamp_symbol "timestamp" "1m" 60
    = [Instant.hms 9 0 0] /\
  (fun row : gmap string cell => row !! "timestamp") <$>
    get_price_history Samples.engine_with_timestamp_symbol ["timestamp"] "1m" 60
    = [Some (CPrice 100)].
Proof. split; vm_compute; reflexivity. Qed.

Lemma combine_symbol_picked all_bars i c symbol :
  combine_symbol all_bars i c symbol =
  match picked all_bars i symbol with
  | Some bar =>
      <[symbol := CPrice (d_close bar)]>
        (if is_none (c !! "timestamp")
         then <["timestamp" := CTime (d_timestamp bar)]> c else c)
  | None => c
  end.
Proof.
  unfold combine_symbol, picked.
  destruct (_ >=? _); [|done]. by destruct (Py.index _ _).
Qed.

(** Lookup in the dictionary [all_bars] that [get_price_history] fills. *)
Lemma all_bars_lookup {V} (f : string -> V) (l : list string) :
  forall (m : gmap string V) s,
  foldl (fun m symbol => <[symbol := f symbol]> m) m l !! s
  = if decide (s ∈ l) then Some (f s) else m !! s.
Proof.
  induction l as [|a l IH]; intros m s; simpl; [done|].
  rewrite IH. destruct (decide (s ∈ a :: l)) as [Hin|Hnin].
  - apply elem_of_cons in Hin as [->|Hin].
    + case_decide; [done|]. by rewrite lookup_insert_eq.
    + by rewrite decide_True.
  - apply not_elem_of_cons in Hnin as [Hne Hnin].
    rewrite decide_False by done. by rewrite lookup_insert_ne.
Qed.

Lemma foldl_min_le (xs : list Z) : forall x y,
  y ∈ x :: xs -> foldl Z.min x xs <= y.
Proof.
  induction xs as [|a xs IH]; intros x y Hy; simpl.
  - apply list_elem_of_singleton in Hy. lia.
  - apply elem_of_cons in Hy as [->|Hy].
    + pose proof (IH (Z.min x a) (Z.min x a) ltac:(by left)). lia.
    + apply elem_of_cons in Hy as [->|Hy].
      * pose proof (IH (Z.min x a) (Z.min x a) ltac:(by left)). lia.
      * apply IH. by right.
Qed.

Lemma foldl_min_in (xs : list Z) : forall x, foldl Z.min x xs ∈ x :: xs.
Proof.
  induction xs as [|a xs IH]; intros x; simpl; [by left|].
  specialize (IH (Z.min x a)). apply elem_of_cons in IH as [Heq|Hin].
  - rewrite Heq. destruct (Z.min_spec x a) as [[_ ->]|[_ ->]];
      [by left|right; by left].
  - right. by right.
Qed.

Lemma min_len_spec (all_bars : gmap string (list BarDict)) :
  all_bars ≠ ∅ ->
  (forall s bars, all_bars !! s = Some bars -> min_len all_bars <= Py.len bars) /\
  (exists s bars, all_bars !! s = Some bars /\ min_len all_bars = Py.len bars).
Proof.
  intros Hne. unfold min_len.
  assert (Hel : forall v, v ∈ Py.len <$> (map_to_list all_bars).*2 <->
                  exists s bars, all_bars !! s = Some bars /\ v = Py.len bars).
  { intros v. rewrite list_elem_of_fmap. split.
    - intros (bars & -> & Hin). apply list_elem_of_fmap in Hin as ([s b] & -> & Hin).
      apply elem_of_map_to_list in Hin. by exists s, b.
    - intros (s & bars & Hs & ->). exists bars. split; [done|].
      apply list_elem_of_fmap. exists (s, bars). split; [done|].
      by apply elem_of_map_to_list. }
  destruct (Py.len <$> (map_to_list all_bars).*2) as [|x xs] eqn:HL.
  - exfalso. apply Hne. apply map_to_list_empty_iff.
    by destruct (map_to_list all_bars).
  - split.
    + intros s bars Hs. apply foldl_min_le. apply Hel. by exists s, bars.
    + apply Hel. apply foldl_min_in.
Qed.

Lemma combine_keeps_timestamp_set all_bars i (l : list string) :
  forall c, is_none (c !! "timestamp") = false ->
  is_none (foldl (combine_symbol all_bars i) c l !! "timestamp") = false.
Proof.
  induction l as [|a l IH]; intros c Hc; simpl; [done|].
  apply IH. rewrite combine_symbol_picked.
  destruct (picked all_bars i a) as [bar|]; [|done].
  rewrite Hc. destruct (decide (a = "timestamp")) as [->|Hne].
  - by rewrite lookup_insert_eq.
  - by rewrite lookup_insert_ne.
Qed.

Lemma combine_keeps_timestamp all_bars i (l : list string) :
  forall c, "timestamp" ∉ l -> is_none (c !! "timestamp") = false ->
  foldl (combine_symbol all_bars i) c l !! "timestamp" = c !! "timestamp".
Proof.
  induction l as [|a l IH]; intros c Hl Hc; simpl; [done|].
  apply not_elem_of_cons in Hl as [Hne Hl].
  assert (Hstep : combine_symbol all_bars i c a !! "timestamp" = c !! "timestamp").
  { rewrite combine_symbol_picked.
    destruct (picked all_bars i a) as [bar|]; [|done].
    rewrite Hc. by rewrite lookup_insert_ne. }
  rewrite IH; [done|done|by rewrite Hstep].
Qed.

Lemma combine_columns all_bars i (l : list string) :
  forall c s, s ≠ "timestamp" ->
  (forall a, a ∈ l -> is_Some (picked all_bars i a)) ->
  foldl (combine_symbol all_bars i) c l !! s
  = if decide (s ∈ l)
    then (fun bar => CPrice (d_close bar)) <$> picked all_bars i s
    else c !! s.
Proof.
  induction l as [|a l IH]; intros c s Hs Hp; simpl; [done|].
  assert (Hstep : combine_symbol all_bars i c a !! s
                  = if decide (s = a)
                    then (fun bar => CPrice (d_close bar)) <$> picked all_bars i a
                    else c !! s).
  { rewrite combine_symbol_picked.
    destruct (Hp a ltac:(by left)) as [bar Hbar]. rewrite Hbar. simpl.
    destruct (decide (s = a)) as [->|Hne].
    - by rewrite lookup_insert_eq.
    - rewrite lookup_insert_ne by done.
      destruct (is_none _); [|done]. by rewrite lookup_insert_ne. }
  rewrite IH; [|done|intros; apply Hp; by right].
  rewrite Hstep. destruct (decide (s ∈ a :: l)) as [Hin|Hnin].
  - apply elem_of_cons in Hin as [->|Hin].
    + rewrite (decide_True (P := a = a)) by done.
      by destruct (decide (a ∈ l)).
    + by rewrite (decide_True (P := s ∈ l)).
  - apply not_elem_of_cons in Hnin as [Hne Hnin].
    by rewrite !decide_False.
Qed.

Lemma picked_tail (all_bars : gmap string (list BarDict)) s bars (m : Z) (k : nat) :
  all_bars !! s = Some bars -> m <= Py.len bars -> Z.of_nat k < m ->
  picked all_bars (- m + Z.of_nat k) s
    = bars !! (length bars - Z.to_nat m + k)%nat /\
  is_Some (bars !! (length bars - Z.to_nat m + k)%nat).
Proof.
  intros Hs Hm Hk. unfold picked, Py.index, Py.len in *. rewrite Hs. simpl.
  destruct (Z.geb_spec (Z.of_nat (length bars)) (Z.abs (- m + Z.of_nat k)));
    [|lia].
  destruct (Z.ltb_spec (- m + Z.of_nat k) 0); [|lia].
  destruct (Z.ltb_spec (Z.of_nat (length bars) + (- m + Z.of_nat k)) 0); [lia|].
  replace (Z.to_nat (Z.of_nat (length bars) + (- m + Z.of_nat k)))
    with (length bars - Z.to_nat m + k)%nat by lia.
  split; [done|]. apply lookup_lt_is_Some. lia.
Qed.

Lemma filter_all {A} (P : A -> Prop) `{forall x, Decision (P x)} (l : list A) :
  Forall P l -> filter P l = l.
Proof.
  induction 1 as [|x l Hx _ IH]; [done|].
  rewrite filter_cons_True by done. by rewrite IH.
Qed.

Lemma row_timestamp_set (all_bars : gmap string (list BarDict))
    (first : string) (rest : list string) (m : Z) (k : nat) :
  (forall s, s ∈ first :: rest ->
     exists bars, all_bars !! s = Some bars /\ m <= Py.len bars) ->
  Z.of_nat k < m ->
  is_none (combined_row all_bars (first :: rest) (- m + Z.of_nat k) !! "timestamp")
  = false.
Proof.
  intros Hall Hk. unfold combined_row. simpl.
  apply combine_keeps_timestamp_set. rewrite combine_symbol_picked.
  destruct (Hall first ltac:(by left)) as (bars & Hb & Hm).
  destruct (picked_tail all_bars first bars m k Hb Hm Hk) as [-> [b ->]].
  rewrite lookup_singleton_eq. simpl.
  destruct (decide (first = "timestamp")) as [->|Hne].
  - by rewrite lookup_insert_eq.
  - rewrite lookup_insert_ne by done. by rewrite lookup_insert_eq.
Qed.

Lemma row_cells (all_bars : gmap string (list BarDict))
    (first : string) (rest : list string) (m : Z) (k : nat) :
  (forall s, s ∈ first :: rest ->
     exists bars, all_bars !! s = Some bars /\ m <= Py.len bars) ->
  Z.of_nat k < m -> "timestamp" ∉ first :: rest ->
  let row := combined_row all_bars (first :: rest) (- m + Z.of_nat k) in
  row !! "timestamp"
    = (fun bar => CTime (d_timestamp bar)) <$> picked all_bars (- m + Z.of_nat k) first /\
  forall s, s ≠ "timestamp" ->
    row !! s = if decide (s ∈ first :: rest)
               then (fun bar => CPrice (d_close bar)) <$> picked all_bars (- m + Z.of_nat k) s
               else None.
Proof.
  intros Hall Hk Hts row.
  assert (Hp : forall a, a ∈ first :: rest ->
                 is_Some (picked all_bars (- m + Z.of_nat k) a)).
  { intros a Ha. destruct (Hall a Ha) as (bars & Hb & Hm).
    destruct (picked_tail all_bars a bars m k Hb Hm Hk) as [-> ?]. done. }
  split.
  - subst row. unfold combined_row. simpl.
    apply not_elem_of_cons in Hts as [Hne Hts].
    destruct (Hp first ltac:(by left)) as [b Hb].
    assert (Hfirst : combine_symbol all_bars (- m + Z.of_nat k)
                       {["timestamp" := CNone]} first !! "timestamp"
                     = Some (CTime (d_timestamp b))).
    { rewrite combine_symbol_picked, Hb, lookup_singleton_eq. simpl.
      rewrite lookup_insert_ne by done. by rewrite lookup_insert_eq. }
    rewrite combine_keeps_timestamp; [by rewrite Hfirst, Hb|done|by rewrite Hfirst].
  - intros s Hs. subst row. unfold combined_row.
    rewrite combine_columns by done.
    case_decide; [done|]. by rewrite lookup_singleton_ne.
Qed.

(** The rows of [get_price_history] when no requested symbol is named like
    the key under which a row keeps its bucket-start. *)
Lemma price_history_rows_plain (e : ResamplingEngine) (symbols : list string)
    (interval : string) (n : Z) :
  symbols ≠ [] ->
  let rows := get_price_history e symbols interval n in
  let bars := fun s => get_bars e s interval n in
  (forall s, s ∈ symbols -> (length rows <= length (bars s))%nat) /\
  (exists s, s ∈ symbols /\ length rows = length (bars s)) /\
  ("timestamp" ∉ symbols ->
   forall k, (k < length rows)%nat ->
     exists row, rows !! k = Some row /\
       (exists first b, head symbols = Some first /\
          bars first !! (length (bars first) - length rows + k)%nat = Some b /\
          row !! "timestamp" = Some (CTime (d_timestamp b))) /\
       (forall s, s ∈ symbols -> exists b,
          bars s !! (length (bars s) - length rows + k)%nat = Some b /\
          row !! s = Some (CPrice (d_close b))) /\
       dom row = {["timestamp"]} ∪ list_to_set symbols).
Proof.
  intros Hne rows bars. subst rows. unfold get_price_history.
  destruct symbols as [|first rest]; [done|].
  set (ab := foldl (fun m symbol => <[symbol := get_bars e symbol interval n]> m)
               ∅ (first :: rest)).
  assert (Hab : forall s, ab !! s = if decide (s ∈ first :: rest)
                                    then Some (bars s) else None).
  { intros s. subst ab. rewrite (all_bars_lookup (fun s => get_bars e s interval n)).
    case_decide; [done|]. by rewrite lookup_empty. }
  assert (Hab_ne : ab ≠ ∅).
  { intros Hempty. specialize (Hab first).
    rewrite decide_True in Hab by (by left).
    by rewrite Hempty, lookup_empty in Hab. }
  destruct (min_len_spec ab Hab_ne) as [Hle (s0 & bars0 & Hs0 & Hmin)].
  set (m := min_len ab) in *.
  assert (Hs0' : s0 ∈ first :: rest /\ bars0 = bars s0).
  { specialize (Hab s0). rewrite Hs0 in Hab. case_decide; [|done].
    split; [done|congruence]. }
  destruct Hs0' as [Hs0in ->].
  assert (Hall : forall s, s ∈ first :: rest ->
                   exists l, ab !! s = Some l /\ m <= Py.len l).
  { intros s Hs. exists (bars s). rewrite Hab, decide_True by done.
    split; [done|]. apply (Hle s). by rewrite Hab, decide_True. }
  assert (Hlen : forall s, s ∈ first :: rest -> m <= Py.len (bars s)).
  { intros s Hs. destruct (Hall s Hs) as (l & Hl & Hm).
    rewrite Hab, decide_True in Hl by done. congruence. }
  destruct (Z.eqb_spec m 0) as [Hzero|Hpos].
  - simpl. split; [intros; lia|]. split.
    + exists s0. split; [done|]. unfold Py.len in Hmin. lia.
    + intros _ k Hk. lia.
  - rewrite filter_all.
    2:{ apply Forall_fmap, Forall_fmap, Forall_forall. intros k Hk.
        apply elem_of_seq in Hk. simpl.
        apply row_timestamp_set; [done|]. unfold Py.len in *. lia. }
    unfold tail_offsets. rewrite !length_fmap, length_seq.
    assert (Hm0 : 0 <= m) by (rewrite Hmin; unfold Py.len; lia).
    split; [|split].
    + intros s Hs. specialize (Hlen s Hs). unfold Py.len in Hlen. lia.
    + exists s0. split; [done|]. unfold Py.len in Hmin. lia.
    + intros Hts k Hk.
      exists (combined_row ab (first :: rest) (- m + Z.of_nat k)).
      split.
      { rewrite <- list_fmap_compose, list_lookup_fmap.
        rewrite lookup_seq_lt by done. done. }
      destruct (row_cells ab first rest m k Hall ltac:(lia) Hts) as [Hrow_ts Hrow_col].
      assert (Hpick : forall s, s ∈ first :: rest -> exists b,
                bars s !! (length (bars s) - Z.to_nat m + k)%nat = Some b /\
                picked ab (- m + Z.of_nat k) s = Some b).
      { intros s Hs.
        destruct (picked_tail ab s (bars s) m k) as [Hp [b Hb]];
          [by rewrite Hab, decide_True|by apply Hlen|lia|].
        exists b. split; [done|]. by rewrite Hp. }
      split; [|split].
      * destruct (Hpick first ltac:(by left)) as (b & Hb & Hp).
        exists first, b. split; [done|]. split; [done|].
        by rewrite Hrow_ts, Hp.
      * intros s Hs. destruct (Hpick s Hs) as (b & Hb & Hp).
        exists b. split; [done|].
        rewrite Hrow_col by (intros ->; done).
        by rewrite decide_True, Hp.
      * apply set_eq. intros s. rewrite elem_of_dom, elem_of_union,
          elem_of_singleton, elem_of_list_to_set.
        destruct (decide (s = "timestamp")) as [->|Hsne].
        { rewrite Hrow_ts. destruct (Hpick first ltac:(by left)) as (b & _ & ->).
          split; [by left|by eexists]. }
        rewrite Hrow_col by done. case_decide as Hin.
        { destruct (Hpick s Hin) as (b & _ & ->). split; [by right|by eexists]. }
        split; [by intros [? ?]|intros [?|?]; done].
Qed.

End PriceHistoryFacts.

(** ** Rolling z-score *)

Section ZScoreFacts.
Import Analytics.
Local Open Scope float_scope.

(** C4 fails on the code.  On a window whose values are all the same
    number 0.1, so that the sample standard deviation is 0 and the z-score
    must be 0, the rounded mean differs from 0.1, the test [std == 0] fails
    and [compute_zscore] returns about -0.816 for three values and about
    -0.975 for the default window of twenty values.  With a window of one
    value the divisor W - 1 is 0 and the result is NaN, and with a window
    of 0 on an empty series [spread[-1]] raises. *)
Theorem zscore_constant_window_nonzero :
  (forall v, v ∈ Py.slice_from [tenth; tenth; tenth] (- 3) -> v = tenth) /\
  np_mean [tenth; tenth; tenth] = 0x1.999999999999bp-4 /\
  np_std [tenth; tenth; tenth] 1 = 0x1.3988e1409212ep-56 /\
  compute_zscore 3 [tenth; tenth; tenth] = ZValue (-0x1.a20bd700c2c3fp-1) /\
  (exists z, compute_zscore 20 (replicate 20 tenth) = ZValue z /\
             (z <? -0x1.8p-1) = true) /\
  compute_zscore 1 [tenth] = ZValue nan /\
  compute_zscore 0 [] = ZIndexError.
Proof.
  split.
  { intros v Hv. vm_compute in Hv.
    repeat (apply elem_of_cons in Hv as [->|Hv]; [done|]).
    by apply elem_of_nil in Hv. }
  repeat split; try (vm_compute; reflexivity).
  eexists. split; vm_compute; reflexivity.
Qed.

End ZScoreFacts.

(** ** Bar listing *)

Section BarListingFacts.
Import Resampling ResamplingAdmin.

Lemma sort_insert_perm x l : sort_insert x l ≡ₚ x :: l.
Proof.
  induction l as [|y l IH]; simpl; [done|].
  destruct (d_timestamp x <=? d_timestamp y); [done|].
  rewrite IH. apply Permutation_swap.
Qed.

Lemma sort_by_timestamp_perm l : sort_by_timestamp l ≡ₚ l.
Proof.
  induction l as [|x l IH]; simpl; [done|].
  rewrite sort_insert_perm. by rewrite IH.
Qed.

Lemma sort_insert_sorted x l :
  Sorted by_time l -> Sorted by_time (sort_insert x l).
Proof.
  induction 1 as [|y l Hs IH Hhd]; simpl.
  - by repeat constructor.
  - destruct (Z.leb_spec (d_timestamp x) (d_timestamp y)) as [Hle|Hgt].
    + constructor; [by constructor|]. by constructor.
    + constructor; [done|].
      destruct l as [|z l]; simpl.
      * constructor. unfold by_time. lia.
      * inversion Hhd; subst.
        destruct (d_timestamp x <=? d_timestamp z); constructor;
          unfold by_time in *; lia.
Qed.

Lemma sort_by_timestamp_sorted l : StronglySorted by_time (sort_by_timestamp l).
Proof.
  apply Sorted_StronglySorted.
  - intros a b c. unfold by_time. lia.
  - induction l as [|x l IH]; simpl; [constructor|].
    by apply sort_insert_sorted.
Qed.

Lemma strongly_sorted_drop {A} (R : A -> A -> Prop) k (l : list A) :
  StronglySorted R l -> StronglySorted R (drop k l).
Proof.
  intros H. revert k. induction H as [|x l Hs IH Hall]; intros [|k]; simpl;
    try done; by constructor.
Qed.

Lemma list_bars_held stored (current : option Bar) n :
  list_bars stored current n
  = (let all := sort_by_timestamp (bar_dict <$> (stored ++ option_list current)) in
     if Py.len all >? n then Py.slice_from all (- n) else all).
Proof.
  unfold list_bars. rewrite fmap_app. by destruct current.
Qed.

Lemma get_bars_held e symbol interval n :
  get_bars e symbol interval n
  = (let all := sort_by_timestamp (bar_dict <$> held e symbol interval) in
     if Py.len all >? n then Py.slice_from all (- n) else all).
Proof.
  unfold get_bars, held.
  destruct (decide (interval = "1m")); [apply list_bars_held|].
  destruct (decide (interval = "1s")); [apply list_bars_held|].
  simpl. destruct (_ >? _); [|done].
  unfold Py.slice_from. by rewrite drop_nil.
Qed.

(** X1.  Whatever the order in which bars were archived, [get_bars] lists
    them by ascending bucket-start, and every dictionary it returns is the
    copy of a bar the engine holds for that symbol and interval. *)
Theorem get_bars_sorted (e : ResamplingEngine) (symbol interval : string) (n : Z) :
  StronglySorted by_time (get_bars e symbol interval n) /\
  forall d, d ∈ get_bars e symbol interval n ->
            exists b, b ∈ held e symbol interval /\ d = bar_dict b.
Proof.
  rewrite get_bars_held. simpl.
  set (all := sort_by_timestamp (bar_dict <$> held e symbol interval)).
  assert (Hs : StronglySorted by_time all) by apply sort_by_timestamp_sorted.
  assert (Hin : forall d, d ∈ all -> exists b, b ∈ held e symbol interval /\ d = bar_dict b).
  { intros d Hd. subst all. rewrite sort_by_timestamp_perm in Hd.
    apply list_elem_of_fmap in Hd as (b & -> & Hb). by exists b. }
  destruct (_ >? _); [|done]. unfold Py.slice_from. split.
  - by apply strongly_sorted_drop.
  - intros d Hd. apply Hin. by eapply subseteq_drop.
Qed.

(** X2.  Let the complete listing be the dictionaries of all bars held,
    by ascending bucket-start.  For n > 0 [get_bars] returns the complete
    listing without its count - n oldest entries (all of it when n is at
    least the count), that is the min(n, count) newest; for n = 0 it
    returns all of it rather than nothing; for a negative n = -k it
    returns it without its k oldest entries.  An interval other than 1m
    and 1s yields nothing. *)
Theorem get_bars_length (e : ResamplingEngine) (symbol interval : string) (n : Z) :
  let count := Py.len (held e symbol interval) in
  Py.len (get_bars e symbol interval n)
  = (if 0 <? n then Z.min n count else count - Z.min (- n) count) /\
  (interval <> "1m" -> interval <> "1s" -> get_bars e symbol interval n = []) /\
  exists all,
    all ≡ₚ bar_dict <$> held e symbol interval /\
    StronglySorted by_time all /\
    get_bars e symbol interval n
    = drop (Z.to_nat (if 0 <? n then count - n else - n)) all.
Proof.
  intros count. split; [|split].
  - rewrite get_bars_held. simpl.
    set (all := sort_by_timestamp (bar_dict <$> held e symbol interval)).
    assert (Hlen : Py.len all = count).
    { subst all count. unfold Py.len.
      by rewrite sort_by_timestamp_perm, length_fmap. }
    destruct (Z.gtb_spec (Py.len all) n) as [Hgt|Hle].
    + unfold Py.slice_from. rewrite Hlen in *.
      assert (Hd : Py.len (drop (Z.to_nat (if - n <? 0 then Z.max (count + - n) 0
                                          else Z.min (- n) count)) all)
                   = count - (if - n <? 0 then Z.max (count + - n) 0
                              else Z.min (- n) count)).
      { unfold Py.len in *. rewrite length_drop.
        destruct (Z.ltb_spec (- n) 0); lia. }
      rewrite Hd.
      destruct (Z.ltb_spec (- n) 0), (Z.ltb_spec 0 n); lia.
    + rewrite Hlen in *. destruct (Z.ltb_spec 0 n); [lia|].
      unfold count, Py.len in *. lia.
  - intros H1 H2. unfold get_bars. by rewrite !decide_False.
  - exists (sort_by_timestamp (bar_dict <$> held e symbol interval)).
    split; [apply sort_by_timestamp_perm|].
    split; [apply sort_by_timestamp_sorted|].
    rewrite get_bars_held. simpl.
    set (all := sort_by_timestamp (bar_dict <$> held e symbol interval)).
    assert (Hlen : Py.len all = count).
    { subst all count. unfold Py.len.
      by rewrite sort_by_timestamp_perm, length_fmap. }
    destruct (Z.gtb_spec (Py.len all) n) as [Hgt|Hle].
    + unfold Py.slice_from. rewrite Hlen in *.
      destruct (Z.ltb_spec (- n) 0), (Z.ltb_spec 0 n); try lia.
      * f_equal. lia.
      * destruct (Z.le_gt_cases (- n) count) as [Hk|Hk].
        { f_equal. lia. }
        rewrite !drop_ge; [done|unfold Py.len in *; lia..].
    + rewrite Hlen in *. destruct (Z.ltb_spec 0 n).
      * replace (Z.to_nat (count - n)) with 0%nat by lia. done.
      * assert (n = 0 /\ count = 0) as [-> Hc].
        { unfold count, Py.len in *. lia. }
        done.
Qed.

(** X3.  When n is at least the number of bars held, [get_bars] loses
    nothing: its result is a rearrangement of the copies of all finalized
    bars and of the current bar. *)
Theorem get_bars_complete (e : ResamplingEngine) (symbol interval : string) (n : Z) :
  Py.len (held e symbol interval) <= n ->
  get_bars e symbol interval n ≡ₚ bar_dict <$> held e symbol interval.
Proof.
  intros Hn. rewrite get_bars_held. simpl.
  assert (Hlen : Py.len (sort_by_timestamp (bar_dict <$> held e symbol interval))
                 = Py.len (held e symbol interval)).
  { unfold Py.len. by rewrite sort_by_timestamp_perm, length_fmap. }
  destruct (Z.gtb_spec (Py.len (sort_by_timestamp (bar_dict <$> held e symbol interval))) n);
    [lia|].
  apply sort_by_timestamp_perm.
Qed.

Lemma get_bars_complete_witness :
  Py.len (held Samples.scenario2 "BTCUSDT" "1m") <= 60 /\
  get_bars Samples.scenario2 "BTCUSDT" "1m" 60
    ≡ₚ bar_dict <$> held Samples.scenario2 "BTCUSDT" "1m".
Proof.
  assert (H : Py.len (held Samples.scenario2 "BTCUSDT" "1m") <= 60)
    by (vm_compute; intros [=]).
  split; [exact H|]. exact (get_bars_complete Samples.scenario2 "BTCUSDT" "1m" 60 H).
Defined.

End BarListingFacts.

(** ** Clearing, isolation of symbols and shape of the histories *)

Section EngineStateFacts.
Import Resampling MinuteBarFinalizer ResamplingAdmin.

Lemma get_bars_empty_maps e symbol interval n :
  second_bars e !! symbol = None -> minute_bars e !! symbol = None ->
  current_second_bar e !! symbol = None -> current_minute_bar e !! symbol = None ->
  get_bars e symbol interval n = [].
Proof.
  intros H1 H2 H3 H4. rewrite get_bars_held. unfold held.
  rewrite H1, H2, H3, H4. simpl.
  repeat case_decide; simpl; (destruct (_ >? _); [|done]);
    unfold Py.slice_from; by rewrite drop_nil.
Qed.

Lemma get_bars_same_maps e e' symbol interval n :
  second_bars e' !! symbol = second_bars e !! symbol ->
  minute_bars e' !! symbol = minute_bars e !! symbol ->
  current_second_bar e' !! symbol = current_second_bar e !! symbol ->
  current_minute_bar e' !! symbol = current_minute_bar e !! symbol ->
  get_bars e' symbol interval n = get_bars e symbol interval n.
Proof.
  intros H1 H2 H3 H4. rewrite !get_bars_held. unfold held.
  by rewrite H1, H2, H3, H4.
Qed.

(** X4.  [clear(symbol)] forgets every bar of that symbol and leaves the
    other symbols as they are; without a symbol, and also with the empty
    string, it forgets the bars of all symbols. *)
Theorem clear_forgets (e : ResamplingEngine) (symbol : option string)
    (other interval : string) (n : Z) :
  get_bars (clear e symbol) other interval n
  = match symbol with
    | Some s => if decide (s = "" \/ s = other) then []
                else get_bars e other interval n
    | None => []
    end.
Proof.
  assert (Hall : forall e0,
    get_bars {| second_bars := ∅; minute_bars := ∅; current_second_bar := ∅;
                current_minute_bar := ∅;
                max_bars_per_symbol := max_bars_per_symbol e0 |} other interval n = []).
  { intros e0. apply get_bars_empty_maps; simpl; apply lookup_empty. }
  destruct symbol as [s|]; simpl; [|apply Hall].
  destruct (decide (s = "")) as [->|Hne].
  - rewrite decide_True by (by left). apply Hall.
  - destruct (decide (s = other)) as [->|Hno].
    + rewrite decide_True by (by right).
      apply get_bars_empty_maps; simpl; apply lookup_delete_eq.
    + rewrite decide_False by (intros [?|?]; done).
      apply get_bars_same_maps; simpl; by apply lookup_delete_ne.
Qed.

Lemma process_tick_other_maps e tick symbol other :
  symbol <> other ->
  second_bars (_process_tick e tick symbol) !! other = second_bars e !! other /\
  minute_bars (_process_tick e tick symbol) !! other = minute_bars e !! other /\
  current_second_bar (_process_tick e tick symbol) !! other
    = current_second_bar e !! other /\
  current_minute_bar (_process_tick e tick symbol) !! other
    = current_minute_bar e !! other.
Proof.
  intros Hne. unfold _process_tick.
  set (tau := tick_timestamp tick).
  assert (Hs : second_bars (_process_second_bar e tick symbol tau) !! other
               = second_bars e !! other /\
               minute_bars (_process_second_bar e tick symbol tau) = minute_bars e /\
               current_second_bar (_process_second_bar e tick symbol tau) !! other
               = current_second_bar e !! other /\
               current_minute_bar (_process_second_bar e tick symbol tau)
               = current_minute_bar e /\
               max_bars_per_symbol (_process_second_bar e tick symbol tau)
               = max_bars_per_symbol e).
  { unfold _process_second_bar.
    destruct (current_second_bar e !! symbol) as [cur|]; [case_decide|]; simpl;
      rewrite ?lookup_insert_ne, ?archive_lookup_ne by done; done. }
  destruct Hs as (Hs1 & Hs2 & Hs3 & Hs4 & _).
  set (e1 := _process_second_bar e tick symbol tau) in *.
  unfold _process_minute_bar.
  destruct (current_minute_bar e1 !! symbol) as [cur|] eqn:Hcur.
  - case_decide; simpl.
    + rewrite lookup_delete_eq. simpl.
      rewrite lookup_insert_ne, lookup_delete_ne, archive_lookup_ne by done.
      by rewrite Hs1, Hs2, Hs3, Hs4.
    + rewrite Hcur. simpl. rewrite lookup_insert_ne by done.
      by rewrite Hs1, Hs2, Hs3, Hs4.
  - rewrite Hcur. simpl. rewrite lookup_insert_ne by done.
    by rewrite Hs1, Hs2, Hs3, Hs4.
Qed.

(** X5.  Processing a tick for one symbol changes nothing that [get_bars]
    reports for any other symbol, on any interval. *)
Theorem process_tick_isolated (e : ResamplingEngine) (tick : TickData)
    (symbol other interval : string) (n : Z) :
  symbol <> other ->
  get_bars (_process_tick e tick symbol) other interval n
  = get_bars e other interval n.
Proof.
  intros Hne.
  destruct (process_tick_other_maps e tick symbol other Hne) as (H1 & H2 & H3 & H4).
  by apply get_bars_same_maps.
Qed.

Lemma process_tick_isolated_witness :
  "ETHUSDT" <> "BTCUSDT" /\
  get_bars (_process_tick Samples.scenario2
              (mkTick "ETHUSDT" 10 (Instant.hms 9 3 0) 1) "ETHUSDT")
    "BTCUSDT" "1m" 60
  = get_bars Samples.scenario2 "BTCUSDT" "1m" 60.
Proof.
  assert (H : "ETHUSDT" <> "BTCUSDT") by done.
  split; [exact H|].
  exact (process_tick_isolated Samples.scenario2
           (mkTick "ETHUSDT" 10 (Instant.hms 9 3 0) 1) "ETHUSDT" "BTCUSDT" "1m" 60 H).
Defined.

End EngineStateFacts.

(** ** Shape of the finalized histories *)

Section HistoryFacts.
Import Resampling MinuteBarFinalizer ResamplingAdmin.

Lemma bar_exists_spec l ts : _bar_exists l ts = true <-> ts ∈ timestamps l.
Proof.
  unfold _bar_exists, timestamps. rewrite existsb_exists, list_elem_of_fmap.
  split.
  - intros (b & Hb & Heq). apply bool_decide_eq_true in Heq.
    exists b. split; [done|]. by apply list_elem_of_In.
  - intros (b & -> & Hb). exists b. split; [by apply list_elem_of_In|].
    by apply bool_decide_eq_true.
Qed.

Lemma nodup_drop {A} k (l : list A) : NoDup l -> NoDup (drop k l).
Proof. intros H. eapply sublist_NoDup; [done|apply sublist_drop]. Qed.

Lemma trim_history_ok maxb l b :
  1 <= maxb -> history_ok maxb l -> bar_timestamp b ∉ timestamps l ->
  history_ok maxb (trim maxb (l ++ [b])).
Proof.
  intros Hm [Hnd Hlen] Hnew.
  assert (Hnd' : NoDup (timestamps (l ++ [b]))).
  { unfold timestamps. rewrite fmap_app. simpl. apply NoDup_app. split; [done|].
    split; [|apply NoDup_singleton].
    intros x Hx Hin. apply list_elem_of_singleton in Hin. by subst. }
  unfold trim, Py.slice_from.
  destruct (Z.gtb_spec (Py.len (l ++ [b])) maxb) as [Hgt|Hle].
  - split.
    + unfold timestamps. rewrite fmap_drop. by apply nodup_drop.
    + unfold Py.len in *. rewrite length_drop, length_app in *. simpl in *.
      destruct (Z.ltb_spec (- maxb) 0); lia.
  - by split.
Qed.

Lemma archive_history_ok maxb (bars : gmap string (list Bar)) symbol b :
  1 <= maxb ->
  (forall s l, bars !! s = Some l -> history_ok maxb l) ->
  forall s l, archive maxb bars symbol b !! s = Some l -> history_ok maxb l.
Proof.
  intros Hm Hbars s l. destruct (decide (symbol = s)) as [->|Hne].
  - rewrite archive_lookup. intros [= <-]. simpl.
    assert (Hold : history_ok maxb (default [] (bars !! s))).
    { destruct (bars !! s) as [l0|] eqn:E; simpl; [by eapply Hbars|].
      split; [constructor|]. unfold Py.len. simpl. lia. }
    destruct (_bar_exists _ _) eqn:Hex; [done|].
    apply trim_history_ok; [done|done|].
    intros Hin. apply bar_exists_spec in Hin. congruence.
  - rewrite archive_lookup_ne by done. apply Hbars.
Qed.

Lemma delete_history_ok maxb (bars : gmap string (list Bar)) symbol :
  (forall s l, bars !! s = Some l -> history_ok maxb l) ->
  forall s l, delete symbol bars !! s = Some l -> history_ok maxb l.
Proof.
  intros Hb s l. destruct (decide (symbol = s)) as [->|Hne].
  - by rewrite lookup_delete_eq.
  - rewrite lookup_delete_ne by done. apply Hb.
Qed.

Lemma second_step_histories e tick symbol tau :
  histories_ok e -> histories_ok (_process_second_bar e tick symbol tau).
Proof.
  intros (Hs & Hm & H1). unfold _process_second_bar.
  destruct (current_second_bar e !! symbol) as [cur|]; [case_decide|];
    (split; [|split]); simpl; try done.
  by apply archive_history_ok.
Qed.

Lemma minute_step_histories e tick symbol tau :
  histories_ok e -> histories_ok (_process_minute_bar e tick symbol tau).
Proof.
  intros (Hs & Hm & H1). unfold _process_minute_bar.
  destruct (current_minute_bar e !! symbol) as [cur|] eqn:Hcur.
  - case_decide; simpl.
    + rewrite lookup_delete_eq. (split; [|split]); simpl; try done.
      by apply archive_history_ok.
    + rewrite Hcur. by (split; [|split]).
  - rewrite Hcur. by (split; [|split]).
Qed.

Lemma finalize_histories e symbol :
  histories_ok e -> histories_ok (_finalize_bar e symbol).
Proof.
  intros (Hs & Hm & H1). unfold _finalize_bar.
  destruct (current_minute_bar e !! symbol); [|by (split; [|split])].
  (split; [|split]); simpl; try done. by apply archive_history_ok.
Qed.

Lemma check_histories e W :
  histories_ok e -> histories_ok (_check_and_finalize e W).
Proof.
  unfold _check_and_finalize.
  generalize ((filter (fun sb => due W sb.2 = true)
                 (map_to_list (current_minute_bar e))).*1) as l.
  intros l. revert e. induction l as [|a l IH]; intros e He; simpl; [done|].
  apply IH. by apply finalize_histories.
Qed.

Lemma clear_histories e symbol : histories_ok e -> histories_ok (clear e symbol).
Proof.
  intros (Hs & Hm & H1).
  assert (Hall : histories_ok
            {| second_bars := ∅; minute_bars := ∅; current_second_bar := ∅;
               current_minute_bar := ∅;
               max_bars_per_symbol := max_bars_per_symbol e |}).
  { (split; [|split]); simpl; try done; intros s l; by rewrite lookup_empty. }
  unfold clear. destruct symbol as [s|]; [|done]. case_decide; [done|].
  (split; [|split]); simpl; try done; by apply delete_history_ok.
Qed.

Lemma run_state_histories e : run_state e -> histories_ok e.
Proof.
  induction 1 as [|e tick symbol _ IH|e W _ IH|e symbol _ IH].
  - (split; [|split]); simpl; try done; intros s l; by rewrite lookup_empty.
  - unfold _process_tick. by apply minute_step_histories, second_step_histories.
  - by apply check_histories.
  - by apply clear_histories.
Qed.

(** X6.  However ticks (late ones included), finalizer checks and clears
    are interleaved, a finalized history never holds two bars with the same
    bucket-start, on either interval. *)
Theorem finalized_buckets_unique (e : ResamplingEngine) (symbol : string)
    (l : list Bar) :
  run_state e ->
  minute_bars e !! symbol = Some l \/ second_bars e !! symbol = Some l ->
  NoDup (timestamps l).
Proof.
  intros Hr Hl. destruct (run_state_histories e Hr) as (Hs & Hm & _).
  destruct Hl as [Hl|Hl]; [by apply (Hm _ _ Hl)|by apply (Hs _ _ Hl)].
Qed.

(** X7.  In every state so reached a finalized history holds at most
    [max_bars_per_symbol] = 1000 bars. *)
Theorem finalized_history_bounded (e : ResamplingEngine) (symbol : string)
    (l : list Bar) :
  run_state e ->
  minute_bars e !! symbol = Some l \/ second_bars e !! symbol = Some l ->
  Py.len l <= 1000.
Proof.
  intros Hr Hl.
  assert (Hmax : max_bars_per_symbol e = 1000).
  { clear Hl. induction Hr as [|e tick s _ IH|e W _ IH|e s _ IH]; [done| | |].
    - unfold _process_tick, _process_minute_bar, _process_second_bar.
      repeat (case_match; simpl; try done).
    - revert IH. unfold _check_and_finalize.
      generalize ((filter (fun sb => due W sb.2 = true)
                     (map_to_list (current_minute_bar e))).*1) as l0.
      intros l0. revert e. induction l0 as [|a l0 IHl]; intros e He; simpl; [done|].
      apply IHl. by rewrite finalize_max.
    - unfold clear. repeat (case_match; simpl; try done). }
  destruct (run_state_histories e Hr) as (Hs & Hm & _). rewrite <- Hmax.
  destruct Hl as [Hl|Hl]; [by apply (Hm _ _ Hl)|by apply (Hs _ _ Hl)].
Qed.

Lemma scenario2_run_state : run_state Samples.scenario2.
Proof.
  unfold Samples.scenario2, process_ticks. simpl.
  repeat apply run_tick. apply run_init.
Qed.

Lemma finalized_buckets_unique_witness :
  run_state Samples.scenario2 /\
  minute_bars Samples.scenario2 !! "BTCUSDT" = Some [Samples.bar_0900] /\
  NoDup (timestamps [Samples.bar_0900]).
Proof.
  assert (H : minute_bars Samples.scenario2 !! "BTCUSDT" = Some [Samples.bar_0900])
    by (vm_compute; reflexivity).
  split; [exact scenario2_run_state|]. split; [exact H|].
  exact (finalized_buckets_unique Samples.scenario2 "BTCUSDT" [Samples.bar_0900]
           scenario2_run_state (or_introl H)).
Defined.

Lemma finalized_history_bounded_witness :
  run_state Samples.scenario2 /\
  minute_bars Samples.scenario2 !! "BTCUSDT" = Some [Samples.bar_0900] /\
  Py.len [Samples.bar_0900] <= 1000.
Proof.
  assert (H : minute_bars Samples.scenario2 !! "BTCUSDT" = Some [Samples.bar_0900])
    by (vm_compute; reflexivity).
  split; [exact scenario2_run_state|]. split; [exact H|].
  exact (finalized_history_bounded Samples.scenario2 "BTCUSDT" [Samples.bar_0900]
           scenario2_run_state (or_introl H)).
Defined.

End HistoryFacts.

(** ** Finalizer checks *)

Section FinalizerMoreFacts.
Import Resampling MinuteBarFinalizer ResamplingAdmin.

Lemma finalize_bar_seconds e a :
  second_bars (_finalize_bar e a) = second_bars e /\
  current_second_bar (_finalize_bar e a) = current_second_bar e.
Proof. unfold _finalize_bar. by destruct (current_minute_bar e !! a). Qed.

Lemma finalize_all_seconds l : forall e,
  second_bars (foldl _finalize_bar e l) = second_bars e /\
  current_second_bar (foldl _finalize_bar e l) = current_second_bar e.
Proof.
  induction l as [|a l IH]; intros e; simpl; [done|].
  destruct (IH (_finalize_bar e a)) as [-> ->]. apply finalize_bar_seconds.
Qed.

(** X8.  After a check at wall-clock reading W no current minute bar is due
    at W any more, so that a second check at the same reading changes
    nothing; the check never creates or alters a current bar and never
    touches the 1-second bars. *)
Theorem check_and_finalize_settles (e : ResamplingEngine) (W : Z) :
  let e' := _check_and_finalize e W in
  (forall s b, current_minute_bar e' !! s = Some b ->
     due W b = false /\ current_minute_bar e !! s = Some b) /\
  _check_and_finalize e' W = e' /\
  second_bars e' = second_bars e /\
  current_second_bar e' = current_second_bar e.
Proof.
  intros e'.
  assert (Hcur : forall s b, current_minute_bar e' !! s = Some b ->
            due W b = false /\ current_minute_bar e !! s = Some b).
  { intros s b. subst e'. unfold _check_and_finalize.
    rewrite finalize_all_current. case_decide as Hin; [done|].
    intros Hb. split; [|done].
    destruct (due W b) eqn:Hd; [|done].
    exfalso. apply Hin. apply symbols_to_finalize_spec. by exists b. }
  split; [exact Hcur|]. split.
  - unfold _check_and_finalize at 1.
    destruct ((filter (fun sb => due W sb.2 = true)
                 (map_to_list (current_minute_bar e'))).*1) as [|s rest] eqn:Hl;
      [done|].
    exfalso.
    assert (Hs : s ∈ (filter (fun sb => due W sb.2 = true)
                        (map_to_list (current_minute_bar e'))).*1)
      by (rewrite Hl; by left).
    apply symbols_to_finalize_spec in Hs as (b & Hb & Hd).
    destruct (Hcur s b Hb) as [Hnd _]. congruence.
  - subst e'. unfold _check_and_finalize. apply finalize_all_seconds.
Qed.

End FinalizerMoreFacts.

(** ** Aligned price history on the states the application reaches *)

Section PriceHistoryOnRuns.
Import Resampling MinuteBarFinalizer ResamplingAdmin.

Lemma fed_untracked (allowed : string -> Prop) e symbol :
  ~ allowed symbol -> fed allowed e -> untracked e symbol.
Proof.
  intros Hn. induction 1 as [|e tick _ IH Hal|e W _ IH|e s _ IH].
  - repeat split; apply lookup_empty.
  - destruct IH as (I1 & I2 & I3 & I4).
    destruct (process_tick_other_maps e tick (tick_symbol tick) symbol)
      as (H1 & H2 & H3 & H4); [intros Heq; apply Hn; by rewrite <- Heq|].
    repeat split; congruence.
  - destruct IH as (I1 & I2 & I3 & I4).
    unfold untracked, _check_and_finalize.
    destruct (finalize_all_seconds
                (filter (fun sb => due W sb.2 = true)
                        (map_to_list (current_minute_bar e))).*1 e) as [-> ->].
    rewrite finalize_all_current, finalize_all_history.
    rewrite !decide_False; [done| |].
    + intros (bar & Hbar & _)%symbols_to_finalize_spec. congruence.
    + intros (bar & Hbar & _)%symbols_to_finalize_spec. congruence.
  - destruct IH as (I1 & I2 & I3 & I4). unfold untracked, clear.
    destruct s as [s|]; [destruct (decide (s = ""))|]; simpl;
      rewrite ?lookup_empty; try done.
    destruct (decide (s = symbol)) as [->|Hne].
    + by rewrite !lookup_delete_eq.
    + by rewrite !lookup_delete_ne.
Qed.

Lemma fed_ticks (allowed : string -> Prop) symbol ticks : forall e,
  fed allowed e -> allowed symbol ->
  Forall (fun t => tick_symbol t = symbol) ticks ->
  fed allowed (process_ticks e ticks symbol).
Proof.
  unfold process_ticks.
  induction ticks as [|t ticks IH]; intros e He Hal Hall; simpl; [done|].
  apply Forall_cons in Hall as [Ht Hall].
  apply IH; [|done|done].
  rewrite <- Ht. apply fed_tick; [done|by rewrite Ht].
Qed.

(** C6.  On every state the application reaches (ticks are processed under
    their own symbol, which the tick source has put in upper case, so it
    is never the text timestamp) and for every non-empty symbol list,
    [get_price_history] returns exactly min_i |get_bars(sym_i, I, N)| rows
    (none when that minimum is zero); row k carries the timestamp of the
    first symbol's bar at the same offset from the tail and, for each
    requested symbol, the close of that symbol's bar at that offset, and
    has no other column: alignment is by tail index, not by timestamp. *)
Theorem price_history_rows (e : ResamplingEngine) (symbols : list string)
    (interval : string) (n : Z) :
  symbols ≠ [] ->
  fed (fun s => s <> "timestamp") e ->
  let rows := get_price_history e symbols interval n in
  let bars := fun s => get_bars e s interval n in
  (forall s, s ∈ symbols -> (length rows <= length (bars s))%nat) /\
  (exists s, s ∈ symbols /\ length rows = length (bars s)) /\
  (forall k, (k < length rows)%nat ->
     exists row, rows !! k = Some row /\
       (exists first b, head symbols = Some first /\
          bars first !! (length (bars first) - length rows + k)%nat = Some b /\
          row !! "timestamp" = Some (CTime (d_timestamp b))) /\
       (forall s, s ∈ symbols -> exists b,
          bars s !! (length (bars s) - length rows + k)%nat = Some b /\
          row !! s = Some (CPrice (d_close b))) /\
       dom row = {["timestamp"]} ∪ list_to_set symbols).
Proof.
  intros Hne Hfed rows bars.
  destruct (price_history_rows_plain e symbols interval n Hne)
    as (Hle & Hmin & Hrows).
  split; [exact Hle|]. split; [exact Hmin|].
  destruct (decide ("timestamp" ∈ symbols)) as [Hin|Hnin].
  - intros k Hk. exfalso.
    assert (Hu : untracked e "timestamp").
    { apply (fed_untracked (fun s => s <> "timestamp")); [|done].
      intros H. by apply H. }
    destruct Hu as (U1 & U2 & U3 & U4).
    specialize (Hle "timestamp" Hin). simpl in Hle.
    rewrite (get_bars_empty_maps e "timestamp" interval n U1 U2 U3 U4) in Hle.
    fold rows in Hle. simpl in Hle. lia.
  - by apply Hrows.
Qed.

Lemma price_history_rows_witness :
  (["BTCUSDT"; "ETHUSDT"] ≠ @nil string) /\
  fed (fun s => s <> "timestamp") Samples.two_symbol_engine /\
  length (get_price_history Samples.two_symbol_engine ["BTCUSDT"; "ETHUSDT"] "1m" 60)
    = 2%nat /\
  exists row,
    (get_price_history Samples.two_symbol_engine ["BTCUSDT"; "ETHUSDT"] "1m" 60)
      !! 1%nat = Some row /\
    row !! "timestamp" = Some (CTime (Instant.hms 9 1 0)) /\
    row !! "BTCUSDT" = Some (CPrice 105) /\
    row !! "ETHUSDT" = Some (CPrice 11) /\
    dom row = {["timestamp"]} ∪ list_to_set ["BTCUSDT"; "ETHUSDT"].
Proof.
  assert (Hne : ["BTCUSDT"; "ETHUSDT"] ≠ @nil string) by done.
  assert (Hfed : fed (fun s => s <> "timestamp") Samples.two_symbol_engine).
  { unfold Samples.two_symbol_engine, Samples.scenario2.
    apply fed_ticks; [apply fed_ticks; [apply fed_init|done|]|done|];
      repeat (apply Forall_cons; split; [reflexivity|]); by apply Forall_nil. }
  assert (Hlen : length (get_price_history Samples.two_symbol_engine
                           ["BTCUSDT"; "ETHUSDT"] "1m" 60) = 2%nat)
    by (vm_compute; reflexivity).
  split; [exact Hne|]. split; [exact Hfed|]. split; [exact Hlen|].
  destruct (price_history_rows Samples.two_symbol_engine ["BTCUSDT"; "ETHUSDT"]
              "1m" 60 Hne Hfed) as (_ & _ & Hrows).
  destruct (Hrows 1%nat) as (row & Hrow & _ & _ & Hdom).
  - rewrite Hlen. lia.
  - exists row. split; [exact Hrow|].
    assert (Hrow' : (get_price_history Samples.two_symbol_engine
                       ["BTCUSDT"; "ETHUSDT"] "1m" 60) !! 1%nat = Some row)
      by exact Hrow.
    vm_compute in Hrow'. injection Hrow' as <-.
    split; [vm_compute; reflexivity|]. split; [vm_compute; reflexivity|].
    split; [vm_compute; reflexivity|]. exact Hdom.
Defined.

End PriceHistoryOnRuns.

(** ** Tick buffers and latest prices *)

Section IngestionFacts.
Import Ingestion IngestionEngineOps.

(** X9.  [get_latest(n)] returns the newest min(n, size) ticks, oldest
    first, for n > 0; for n = 0 it returns the whole buffer rather than
    nothing, and for n = -k everything but the k oldest ticks. *)
Theorem get_latest_suffix (b : TickBuffer) (n : Z) :
  get_latest b n `suffix_of` ticks b /\
  Py.len (get_latest b n)
  = (if 0 <? n then Z.min n (Py.len (ticks b))
     else Py.len (ticks b) - Z.min (- n) (Py.len (ticks b))) /\
  get_latest b 0 = ticks b.
Proof.
  unfold get_latest, Py.slice_from. split; [|split].
  - apply suffix_drop.
  - unfold Py.len. rewrite length_drop.
    destruct (Z.ltb_spec (- n) 0), (Z.ltb_spec 0 n); lia.
  - by destruct (ticks b).
Qed.

Lemma add_ticks_count b l :
  tick_count (add_ticks b l) = tick_count b + Py.len l.
Proof.
  induction l as [|x l IH] using rev_ind.
  - simpl. unfold Py.len. simpl. lia.
  - rewrite add_ticks_snoc. simpl. rewrite IH. unfold Py.len.
    rewrite length_app. simpl. lia.
Qed.

(** X10.  [tick_count] counts every tick ever ingested: after K ticks on a
    fresh buffer it is K, never less than the number of ticks still held,
    and clearing the buffer empties it without resetting the count. *)
Theorem tick_count_total symbol ms (b : TickBuffer) (l : list TickData) :
  init symbol ms = Some b ->
  tick_count (add_ticks b l) = Py.len l /\
  Py.len (ticks (add_ticks b l)) <= tick_count (add_ticks b l) /\
  ticks (clear (add_ticks b l)) = [] /\
  last_tick (clear (add_ticks b l)) = None /\
  tick_count (clear (add_ticks b l)) = Py.len l.
Proof.
  intros Hinit.
  assert (H0 : tick_count b = 0).
  { unfold init in Hinit. destruct (_ <? 0); [done|]. by inversion Hinit. }
  assert (Hc : tick_count (add_ticks b l) = Py.len l)
    by (rewrite add_ticks_count; lia).
  split; [done|]. split; [|by repeat split].
  rewrite Hc.
  destruct (init_capacity _ _ _ Hinit) as (Hempty & _ & HC).
  rewrite add_ticks_window by done.
  unfold Py.len. rewrite length_drop. lia.
Qed.

Lemma tick_count_total_witness :
  init "BTCUSDT" (Some 2) = Some Samples.small_buffer /\
  tick_count (add_ticks Samples.small_buffer Samples.three_ticks) = 3 /\
  Py.len (ticks (add_ticks Samples.small_buffer Samples.three_ticks)) <= 3.
Proof.
  split; [reflexivity|].
  destruct (tick_count_total "BTCUSDT" (Some 2) Samples.small_buffer
              Samples.three_ticks eq_refl) as (Hc & Hl & _).
  split; [exact Hc|]. rewrite Hc in Hl. exact Hl.
Defined.

Lemma collect_prices_lookup e (l : list string) : forall (m : gmap string Q) s,
  foldl (collect_price e) m l !! s
  = if decide (s ∈ l) then
      match last_price e s with Some p => Some p | None => m !! s end
    else m !! s.
Proof.
  induction l as [|a l IH]; intros m s; simpl; [done|].
  rewrite IH.
  assert (Hstep : collect_price e m a !! s
                  = if decide (s = a)
                    then match last_price e s with Some p => Some p | None => m !! s end
                    else m !! s).
  { unfold collect_price, last_price.
    destruct (decide (s = a)) as [->|Hne].
    - destruct (buffers e !! a) as [buf|]; simpl; [|done].
      destruct (last_tick buf); simpl; [|done]. by rewrite lookup_insert_eq.
    - destruct (buffers e !! a) as [buf|]; simpl; [|done].
      destruct (last_tick buf); simpl; [|done]. by rewrite lookup_insert_ne. }
  rewrite Hstep.
  destruct (decide (s ∈ a :: l)) as [Hin|Hnin].
  - apply elem_of_cons in Hin as [->|Hin].
    + rewrite (decide_True (P := a = a)) by done.
      destruct (decide (a ∈ l)); by destruct (last_price e a).
    + rewrite (decide_True (P := s ∈ l)) by done.
      destruct (last_price e s); [done|]. by case_decide.
  - apply not_elem_of_cons in Hnin as [Hne Hnin].
    by rewrite !decide_False.
Qed.

(** X11.  [get_latest_prices] maps each queried symbol that has a buffer
    with at least one tick to the price of its most recent tick and omits
    the others; asked with no list, or with an empty list, it reports every
    symbol the engine knows. *)
Theorem get_latest_prices_lookup (e : IngestionEngine)
    (symbols : option (list string)) (s : string) :
  get_latest_prices e symbols !! s
  = match symbols with
    | Some (s0 :: l) => if decide (s ∈ s0 :: l) then last_price e s else None
    | _ => last_price e s
    end.
Proof.
  unfold get_latest_prices.
  assert (Hall : foldl (collect_price e) ∅ (map_to_list (buffers e)).*1 !! s
                 = last_price e s).
  { rewrite collect_prices_lookup, lookup_empty.
    case_decide as Hin; [by destruct (last_price e s)|].
    unfold last_price. destruct (buffers e !! s) as [buf|] eqn:Hb; [|done].
    exfalso. apply Hin. apply list_elem_of_fmap. exists (s, buf).
    split; [done|]. by apply elem_of_map_to_list. }
  destruct symbols as [[|s0 l]|]; [done| |done].
  rewrite collect_prices_lookup, lookup_empty.
  case_decide; [by destruct (last_price e s)|done].
Qed.

(** X12.  After [ingest_tick] the latest price of the tick's symbol is the
    tick's price and the symbol's buffer ends with the tick; the latest
    prices of all other symbols are as before.  A symbol seen for the first
    time gets a buffer of the default capacity. *)
Theorem ingest_then_latest_price (e : IngestionEngine) (tick : TickData) :
  let e' := ingest_tick e tick in
  get_latest_prices e' None !! tick_symbol tick = Some (tick_price tick) /\
  (exists b, buffers e' !! tick_symbol tick = Some b /\
             last_tick b = Some tick /\
             (buffers e !! tick_symbol tick = None ->
              max_size b = 10000 /\ ticks b = [tick])) /\
  forall s, s <> tick_symbol tick ->
    get_latest_prices e' None !! s = get_latest_prices e None !! s.
Proof.
  intros e'.
  assert (Hb : exists b0, buffers e' !! tick_symbol tick = Some (add_tick b0 tick) /\
                 (buffers e !! tick_symbol tick = None ->
                  b0 = new_buffer (tick_symbol tick))).
  { subst e'. unfold ingest_tick, get_or_create_buffer.
    destruct (buffers e !! tick_symbol tick) as [b0|] eqn:Hb0; simpl.
    - exists b0. by rewrite lookup_insert_eq.
    - exists (new_buffer (tick_symbol tick)). by rewrite lookup_insert_eq. }
  destruct Hb as (b0 & Hb & Hnew).
  assert (Hother : forall s, s <> tick_symbol tick -> buffers e' !! s = buffers e !! s).
  { intros s Hs. subst e'. unfold ingest_tick, get_or_create_buffer.
    destruct (buffers e !! tick_symbol tick); simpl;
      by rewrite !lookup_insert_ne. }
  split; [|split].
  - rewrite get_latest_prices_lookup. unfold last_price. by rewrite Hb.
  - exists (add_tick b0 tick). split; [done|]. split; [done|].
    intros Hnone. rewrite (Hnew Hnone). by vm_compute.
  - intros s Hs. rewrite !get_latest_prices_lookup. unfold last_price.
    by rewrite Hother.
Qed.

End IngestionFacts.

(** ** Alert ring and rules *)

Section AlertMoreFacts.
Import Alerts AlertTrace AlertsAdmin.

Lemma run_calls_max cs : forall m log,
  max_alerts (run_calls m cs log).1 = max_alerts m.
Proof.
  induction cs as [|c cs IH]; intros m log; simpl; [done|].
  destruct (do_call_cases m c)
    as [[-> _]|[[err ->]|(m' & a & -> & _ & Hmax & _)]]; rewrite IH; done.
Qed.

(** X13.  Whatever calls of [create_alert] are made on a freshly built
    manager, the ring never holds more than [max_alerts] alerts (100 when no
    capacity is given), and so neither does the list that
    [get_active_alerts] returns. *)
Theorem alert_ring_bounded (ma cd : option Z) (m0 : AlertManager)
    (cs : list call) (limit : option Z) :
  init ma cd = Some m0 ->
  let m := (run_calls m0 cs []).1 in
  Py.len (alerts m) <= max_alerts m0 /\
  Py.len (get_active_alerts m limit) <= max_alerts m0 /\
  (ma = None -> max_alerts m0 = 100).
Proof.
  intros Hinit m.
  pose proof (init_consistent _ _ _ Hinit) as Hc0.
  destruct (run_calls_invariant cs m0 [] Hc0 I) as ((_ & _ & Hlen) & _ & _).
  fold m in Hlen. subst m. rewrite run_calls_max in Hlen.
  split; [done|]. split.
  - unfold get_active_alerts, Py.slice_to, Py.len in *.
    destruct limit as [l|]; [|by rewrite length_reverse].
    destruct (l =? 0); [by rewrite length_reverse|].
    rewrite length_take, length_reverse. lia.
  - intros ->. unfold init in Hinit. simpl in Hinit. by inversion Hinit.
Qed.

Lemma alert_ring_bounded_witness :
  init None None = Some Samples.manager0 /\
  Py.len (alerts (run_calls Samples.manager0
                    [Samples.breach_call 0 "a"; Samples.breach_call 61000000 "b"] []).1)
  <= 100.
Proof.
  split; [reflexivity|].
  destruct (alert_ring_bounded None None Samples.manager0
              [Samples.breach_call 0 "a"; Samples.breach_call 61000000 "b"]
              None eq_refl) as (H & _ & _).
  exact H.
Defined.

(** X14.  Right after an alert has been emitted it is the first element of
    what [get_active_alerts] returns, for an absent limit and for every
    limit >= 0; with limit 1 the answer is exactly that alert. *)
Theorem emitted_alert_is_first (m m' : AlertManager) (c : call) (a : Alert)
    (limit : option Z) :
  max_alerts m <> 0 ->
  do_call m c = Ret m' (Some a) ->
  (forall l, limit = Some l -> 0 <= l) ->
  head (get_active_alerts m' limit) = Some a /\
  get_active_alerts m' (Some 1) = [a].
Proof.
  intros Hmax Hcall Hlimit.
  destruct (do_call_cases m c)
    as [[Hr _]|[[err Hr]|(m2 & a2 & Hr & _ & _ & _ & Hal & _)]];
    rewrite Hr in Hcall; try done.
  injection Hcall as <- <-.
  assert (Hrev : exists rest, reverse (alerts m2) = a2 :: rest).
  { rewrite Hal. unfold Py.deque_append.
    destruct (Z.eqb_spec (max_alerts m) 0); [done|].
    destruct (_ =? _); rewrite reverse_snoc; by eexists. }
  destruct Hrev as [rest Hrev].
  unfold get_active_alerts, Py.slice_to, Py.len. rewrite Hrev. split.
  - destruct limit as [l|]; [|done].
    specialize (Hlimit l eq_refl).
    destruct (Z.eqb_spec l 0); [done|].
    destruct (Z.ltb_spec l 0); [lia|].
    simpl length.
    destruct (Z.to_nat (Z.min l (Z.of_nat (S (length rest))))) eqn:Hn; [lia|done].
  - simpl length. change (1 =? 0) with false. change (1 <? 0) with false.
    cbv iota.
    replace (Z.to_nat (Z.min 1 (Z.of_nat (S (length rest))))) with 1%nat by lia.
    done.
Qed.

Lemma emitted_alert_is_first_witness :
  max_alerts Samples.manager0 <> 0 /\
  exists m' a,
    do_call Samples.manager0 (Samples.breach_call 0 "a") = Ret m' (Some a) /\
    head (get_active_alerts m' None) = Some a /\
    get_active_alerts m' (Some 1) = [a].
Proof.
  assert (H0 : max_alerts Samples.manager0 <> 0) by done.
  split; [exact H0|]. eexists _, _.
  assert (Hc : do_call Samples.manager0 (Samples.breach_call 0 "a")
               = Ret (state_of (do_call Samples.manager0 (Samples.breach_call 0 "a")))
                     (head (alerts (state_of (do_call Samples.manager0
                                               (Samples.breach_call 0 "a"))))))
    by (vm_compute; reflexivity).
  split; [exact Hc|].
  apply (emitted_alert_is_first Samples.manager0 _ (Samples.breach_call 0 "a") _ None H0).
  - exact Hc.
  - intros l [=].
Defined.

Lemma should_fire_false m key now last :
  last_alert_time m !! key = Some last ->
  now - last < cooldown_seconds m * 1000000 ->
  _should_fire_alert m key now = false.
Proof.
  intros Hlast Hearly.
  destruct (_should_fire_alert m key now) eqn:Hf; [|done].
  pose proof (proj1 (should_fire_spec _ _ _) Hf last Hlast). lia.
Qed.

(** X15.  The cooldown key of a z-score breach does not contain the
    direction.  Once a breach alert has been emitted (with kind ALERT,
    metric z_score, the threshold, and direction above for z > 0, below
    otherwise), any further breach evaluated before the cooldown has
    elapsed, also one in the opposite direction, adds nothing and leaves
    the manager unchanged. *)
Theorem opposite_breach_suppressed (m : AlertManager) (clk clk2 : Clock)
    (z1 z2 threshold : Q) :
  (threshold < Qabs z1)%Q -> (threshold < Qabs z2)%Q ->
  _should_fire_alert m "ALERT:Z-Score Threshold Breach:None" (now_check clk) = true ->
  now_check clk2 - now_fire clk < cooldown_seconds m * 1000000 ->
  exists m1 a,
    evaluate_zscore_alert m clk z1 threshold = Ret m1 tt /\
    alerts m1 = Py.deque_append (max_alerts m) (alerts m) a /\
    alert_type a = "ALERT" /\ alert_metric a = Some "z_score" /\
    alert_value a = Some z1 /\ alert_threshold a = Some threshold /\
    alert_direction a = Some (if Qlt_le_dec 0 z1 then "above" else "below") /\
    evaluate_zscore_alert m1 clk2 z2 threshold = Ret m1 tt.
Proof.
  intros Hz1 Hz2 Hfire Hearly.
  unfold evaluate_zscore_alert at 1.
  destruct (Qlt_le_dec threshold (Qabs z1)) as [_|Hle]; [|exfalso; Lqa.lra].
  unfold create_alert.
  change (alert_key "ALERT" "Z-Score Threshold Breach" None)
    with "ALERT:Z-Score Threshold Breach:None".
  rewrite Hfire. simpl.
  eexists _, _. split; [reflexivity|]. simpl.
  repeat (split; [reflexivity|]).
  unfold evaluate_zscore_alert.
  destruct (Qlt_le_dec threshold (Qabs z2)) as [_|Hle]; [|exfalso; Lqa.lra].
  unfold create_alert.
  change (alert_key "ALERT" "Z-Score Threshold Breach" None)
    with "ALERT:Z-Score Threshold Breach:None".
  rewrite (should_fire_false _ _ _ (now_fire clk)); [done| |done].
  simpl. by rewrite lookup_insert_eq.
Qed.

Lemma opposite_breach_suppressed_witness :
  exists m1 a,
    evaluate_zscore_alert Samples.manager0 (Samples.clock_at 0 "a") (425 # 100) 2
      = Ret m1 tt /\
    alerts m1 = [a] /\ alert_direction a = Some "above" /\
    evaluate_zscore_alert m1 (Samples.clock_at 30000000 "b") (- (425 # 100)) 2
      = Ret m1 tt.
Proof.
  assert (Hz1 : (2 < Qabs (425 # 100))%Q) by reflexivity.
  assert (Hz2 : (2 < Qabs (- (425 # 100)))%Q) by reflexivity.
  assert (Hf : _should_fire_alert Samples.manager0
                 "ALERT:Z-Score Threshold Breach:None"
                 (now_check (Samples.clock_at 0 "a")) = true) by reflexivity.
  assert (He : now_check (Samples.clock_at 30000000 "b")
               - now_fire (Samples.clock_at 0 "a")
               < cooldown_seconds Samples.manager0 * 1000000) by reflexivity.
  destruct (opposite_breach_suppressed Samples.manager0 (Samples.clock_at 0 "a")
              (Samples.clock_at 30000000 "b") (425 # 100) (- (425 # 100)) 2
              Hz1 Hz2 Hf He)
    as (m1 & a & H1 & H2 & _ & _ & _ & _ & H3 & H4).
  exists m1, a. split; [exact H1|]. split; [exact H2|]. split; [exact H3|exact H4].
Defined.

(** X16.  [clear_alerts] empties the ring and also forgets every cooldown:
    the next alert of a valid kind is emitted at once, whatever the clock
    says, and is then the only alert in the ring. *)
Theorem clear_alerts_resets_cooldown (m : AlertManager) (c : call) :
  max_alerts m <> 0 -> valid_type (c_type c) = true ->
  exists m' a,
    do_call (clear_alerts m) c = Ret m' (Some a) /\
    alerts m' = [a] /\
    get_active_alerts (clear_alerts m) None = [] /\
    last_alert_time m' = {[c_key c := now_fire (c_clk c)]}.
Proof.
  intros Hmax Hvalid. unfold do_call, create_alert. fold (c_key c).
  unfold _should_fire_alert. simpl. rewrite lookup_empty. simpl.
  rewrite Hvalid. simpl. eexists _, _. split; [reflexivity|]. simpl.
  split; [|split; [done|]].
  - unfold Py.deque_append. destruct (Z.eqb_spec (max_alerts m) 0); [done|].
    unfold Py.len. simpl. by destruct (max_alerts m).
  - by rewrite insert_empty.
Qed.

Lemma clear_alerts_resets_cooldown_witness :
  max_alerts Samples.manager2 <> 0 /\
  valid_type (c_type (Samples.breach_call 0 "a")) = true /\
  exists m' a,
    do_call (clear_alerts Samples.manager2) (Samples.breach_call 0 "a")
      = Ret m' (Some a) /\ alerts m' = [a].
Proof.
  assert (H1 : max_alerts Samples.manager2 <> 0) by done.
  assert (H2 : valid_type (c_type (Samples.breach_call 0 "a")) = true)
    by reflexivity.
  split; [exact H1|]. split; [exact H2|].
  destruct (clear_alerts_resets_cooldown Samples.manager2
              (Samples.breach_call 0 "a") H1 H2) as (m' & a & Hc & Ha & _).
  by exists m', a.
Defined.

End AlertMoreFacts.

(** ** Registration and fan-out *)

Section WebsocketMoreFacts.
Import WebsocketManager WebsocketAdmin.

Lemma fan_out_all_ok send frame (l : list nat) :
  (forall c, c ∈ l -> send c frame = SendOk) ->
  fan_out send l frame = ((fun c => (c, frame)) <$> l, []).
Proof.
  induction l as [|a l IH]; intros Hok; simpl; [done|].
  rewrite IH by (intros c Hc; apply Hok; by right).
  by rewrite (Hok a) by (by left).
Qed.

(** X17.  When the send succeeds for every subscriber of a pool,
    [broadcast_to_pool] delivers the frame exactly once to each of them,
    takes no lock and leaves the manager as it is; on an empty pool nothing
    is sent. *)
Theorem broadcast_all_delivered (send : nat -> string -> send_result)
    (m : ConnectionManager) (pool : gset nat) (frame : string) :
  (forall c, c ∈ pool -> send c frame = SendOk) ->
  (broadcast_to_pool send m pool frame).1 = Done m /\
  (broadcast_to_pool send m pool frame).2
    = (fun c => (c, frame)) <$> elements pool /\
  (pool = ∅ -> (broadcast_to_pool send m pool frame).2 = []).
Proof.
  intros Hok. unfold broadcast_to_pool.
  destruct (decide (pool = ∅)) as [->|Hne].
  - by rewrite elements_empty.
  - rewrite fan_out_all_ok by (intros c Hc; apply Hok; by apply elem_of_elements).
    simpl. rewrite decide_True by done. by split.
Qed.

Lemma broadcast_all_delivered_witness :
  (forall c, c ∈ ({[2%nat]} : gset nat) ->
             Samples.first_send_raises c "frame" = SendOk) /\
  (broadcast_to_pool Samples.first_send_raises Samples.two_subscribers
     {[2%nat]} "frame").2 = (fun c => (c, "frame")) <$> elements ({[2%nat]} : gset nat).
Proof.
  assert (H : forall c, c ∈ ({[2%nat]} : gset nat) ->
                        Samples.first_send_raises c "frame" = SendOk).
  { intros c Hc. apply elem_of_singleton in Hc. by subst. }
  split; [exact H|].
  destruct (broadcast_all_delivered Samples.first_send_raises
              Samples.two_subscribers {[2%nat]} "frame" H) as (_ & Hd & _).
  exact Hd.
Defined.

Lemma manager_eq (m m' : ConnectionManager) :
  price_connections m = price_connections m' ->
  spread_connections m = spread_connections m' ->
  correlation_connections m = correlation_connections m' ->
  summary_connections m = summary_connections m' ->
  alert_connections m = alert_connections m' ->
  analytics_connections m = analytics_connections m' ->
  all_connections m = all_connections m' ->
  lock m = lock m' ->
  m = m'.
Proof. destruct m, m'; simpl; intros; by subst. Qed.

Lemma add_discard {P : Prop} (d : {P} + {~ P}) (websocket : nat)
    (pool : gset nat) :
  websocket ∉ pool ->
  (if d then {[websocket]} ∪ pool else pool) ∖ {[websocket]} = pool.
Proof.
  intros Hn.
  assert (Hp : pool ∖ {[websocket]} = pool)
    by (apply difference_disjoint_L; by apply disjoint_singleton_r).
  destruct d; [|done].
  by rewrite difference_union_distr_l_L, difference_diag_L, union_empty_l_L.
Qed.

(** X18.  With the lock free, [connect] registers a connection that was
    registered nowhere under its stream type, whatever that type is, and a
    following [disconnect] of the same connection gives back exactly the
    manager from before the [connect]. *)
Theorem connect_disconnect_round_trip (m : ConnectionManager)
    (websocket : nat) (stream_type : string) :
  lock m = false -> unknown m websocket ->
  exists m1,
    connect m websocket stream_type = Done m1 /\
    all_connections m1 !! websocket = Some stream_type /\
    disconnect m1 websocket = Done m.
Proof.
  intros Hl (H1 & H2 & H3 & H4 & H5 & H6 & H7).
  unfold connect, with_lock. rewrite Hl. eexists. split; [reflexivity|].
  split; [simpl; apply lookup_insert_eq|].
  unfold disconnect, with_lock. simpl. f_equal.
  apply manager_eq; simpl; try done; try (by apply add_discard).
  - by rewrite delete_insert_id.
Qed.

Lemma connect_disconnect_round_trip_witness :
  exists m1,
    connect init 7%nat "spread" = Done m1 /\
    all_connections m1 !! 7%nat = Some "spread" /\
    disconnect m1 7%nat = Done init.
Proof.
  apply (connect_disconnect_round_trip init 7%nat "spread").
  - reflexivity.
  - repeat split; simpl; apply not_elem_of_empty.
Defined.

Lemma disconnect_all_held m (failed : list nat) :
  lock m = true -> failed <> [] -> disconnect_all m failed = Blocked m.
Proof.
  intros Hl Hne. destruct failed as [|conn rest]; [done|].
  by apply disconnect_all_blocked.
Qed.

Lemma broadcast_run send m (pool : gset nat) frame :
  (broadcast_to_pool send m pool frame).1 = Done m \/
  (broadcast_to_pool send m pool frame).1 = Blocked m \/
  (lock m = false /\
   (broadcast_to_pool send m pool frame).1 = Blocked (set_lock true m)).
Proof.
  unfold broadcast_to_pool.
  destruct (decide (pool = ∅)); [by left|].
  destruct (fan_out send (elements pool) frame) as [delivered failed].
  destruct (decide (list_to_set failed = (∅ : gset nat))) as [He|Hne];
    [by left|].
  right. simpl. unfold with_lock. destruct (lock m) eqn:Hl; [by left|].
  right. split; [done|].
  rewrite disconnect_all_held; [done|done|].
  intros Hnil. apply Hne. apply leibniz_equiv, elements_empty_inv. by rewrite Hnil.
Qed.

(** X19.  [broadcast_to_pool] never removes a connection: whatever the
    sends do and however the coroutine ends, every pool and
    [all_connections] are afterwards what they were before. *)
Theorem broadcast_never_unregisters (send : nat -> string -> send_result)
    (m : ConnectionManager) (pool : gset nat) (frame : string) :
  let m' := manager_of (broadcast_to_pool send m pool frame).1 in
  price_connections m' = price_connections m /\
  spread_connections m' = spread_connections m /\
  correlation_connections m' = correlation_connections m /\
  summary_connections m' = summary_connections m /\
  alert_connections m' = alert_connections m /\
  analytics_connections m' = analytics_connections m /\
  all_connections m' = all_connections m.
Proof.
  destruct (broadcast_run send m pool frame) as [H|[H|[_ H]]];
    simpl; rewrite H; by repeat split.
Qed.

(** X20.  After a broadcast in which the send to some subscriber of the
    pool failed, the lock is never released: every later [connect] and
    every later [disconnect] waits on it for ever, so no client can be
    registered or removed any more. *)
Theorem failed_broadcast_blocks_manager (send : nat -> string -> send_result)
    (m : ConnectionManager) (pool : gset nat) (frame : string) (conn : nat) :
  conn ∈ pool -> send conn frame <> SendOk ->
  let m' := manager_of (broadcast_to_pool send m pool frame).1 in
  (forall websocket stream_type,
     connect m' websocket stream_type = Blocked m') /\
  (forall websocket, disconnect m' websocket = Blocked m').
Proof.
  intros Hin Hfail.
  assert (Hheld :
    lock (manager_of (broadcast_to_pool send m pool frame).1) = true).
  { unfold broadcast_to_pool.
    destruct (decide (pool = ∅)) as [->|_];
      [by apply not_elem_of_empty in Hin|].
    pose proof (fan_out_failed send frame (elements pool) conn) as Hf.
    destruct (fan_out send (elements pool) frame) as [delivered failed].
    simpl in Hf.
    assert (Hc : conn ∈ failed)
      by (apply Hf; split; [by apply elem_of_elements|done]).
    destruct (decide (list_to_set failed = (∅ : gset nat))) as [He|Hne].
    { exfalso. apply (not_elem_of_empty (C := gset nat) conn).
      rewrite <- He. by apply elem_of_list_to_set. }
    simpl. unfold with_lock. destruct (lock m) eqn:Hl; [done|].
    rewrite disconnect_all_held; [done|done|].
    intros Hnil. apply Hne. apply leibniz_equiv, elements_empty_inv. by rewrite Hnil. }
  simpl. split; intros; unfold connect, disconnect, with_lock;
    by rewrite Hheld.
Qed.

Lemma failed_broadcast_blocks_manager_witness :
  let m' := manager_of (broadcast_to_pool Samples.first_send_raises
              Samples.two_subscribers
              (analytics_connections Samples.two_subscribers) "frame").1 in
  (forall websocket stream_type,
     connect m' websocket stream_type = Blocked m') /\
  (forall websocket, disconnect m' websocket = Blocked m').
Proof.
  apply (failed_broadcast_blocks_manager Samples.first_send_raises
           Samples.two_subscribers
           (analytics_connections Samples.two_subscribers) "frame" 1%nat).
  - simpl. apply elem_of_union_l. by apply elem_of_singleton.
  - done.
Defined.

Lemma with_lock_done m body m' :
  with_lock m body = Done m' ->
  lock m = false /\ exists m1, body (set_lock true m) = Done m1 /\
                               m' = set_lock false m1.
Proof.
  unfold with_lock. destruct (lock m); [done|].
  destruct (body (set_lock true m)) as [m1|m1]; [|done].
  intros [= <-]. eauto.
Qed.

Lemma add_subseteq {P : Prop} (d : {P} + {~ P}) (websocket : nat)
    (pool D : gset nat) :
  pool ⊆ D -> (if d then {[websocket]} ∪ pool else pool) ⊆ {[websocket]} ∪ D.
Proof.
  intros Hs. destruct d; [by apply union_mono_l|by apply union_subseteq_r'].
Qed.

Lemma reachable_registered m : reachable m -> registered m.
Proof.
  induction 1 as [|m ws st m' _ IH Hc|m ws m' _ IH Hd
                  |send m pool frame m' _ IH Hb].
  - repeat split; simpl; apply empty_subseteq.
  - apply with_lock_done in Hc as (_ & m1 & [= <-] & ->).
    destruct IH as (I1 & I2 & I3 & I4 & I5 & I6).
    repeat split; simpl; rewrite dom_insert_L; by apply add_subseteq.
  - apply with_lock_done in Hd as (_ & m1 & [= <-] & ->).
    destruct IH as (I1 & I2 & I3 & I4 & I5 & I6).
    repeat split; simpl; rewrite dom_delete_L; by apply difference_mono_r.
  - destruct (broadcast_run send m pool frame) as [H|[H|[_ H]]];
      rewrite H in Hb; by simplify_eq.
Qed.

(** X21.  In every state that completed [connect], [disconnect] and
    [broadcast_to_pool] calls produce from the initial manager, each pool
    holds only connections that [all_connections] knows, so no count that
    [get_connection_stats] reports exceeds the total of
    [get_connection_count]. *)
Theorem connection_stats_bounded (m : ConnectionManager) :
  reachable m ->
  registered m /\
  Forall (fun kv => 0 <= kv.2 <= get_connection_count m)
         (get_connection_stats m).
Proof.
  intros Hr. pose proof (reachable_registered m Hr) as Hreg.
  split; [done|].
  destruct Hreg as (I1 & I2 & I3 & I4 & I5 & I6).
  assert (Hle : forall pool : gset nat, pool ⊆ dom (all_connections m) ->
            0 <= Z.of_nat (size pool) <= get_connection_count m).
  { intros pool Hs. unfold get_connection_count.
    rewrite <- (size_dom (D := gset nat) (all_connections m)).
    split; [lia|]. apply Nat2Z.inj_le. by apply subseteq_size. }
  unfold get_connection_stats.
  apply Forall_cons; split; [unfold get_connection_count; simpl; lia|].
  repeat (apply Forall_cons; split; [simpl; by apply Hle|]).
  by apply Forall_nil.
Qed.

Lemma two_clients_reachable : reachable two_clients.
Proof.
  eapply reach_connect; [eapply reach_connect; [apply reach_init|]|];
    reflexivity.
Qed.

Lemma connection_stats_bounded_witness :
  registered two_clients /\
  Forall (fun kv => 0 <= kv.2 <= get_connection_count two_clients)
         (get_connection_stats two_clients).
Proof.
  apply (connection_stats_bounded two_clients). apply two_clients_reachable.
Defined.

End WebsocketMoreFacts.

(** ** Reconnection of the upstream session *)

Section ReconnectFacts.
Import BinanceClient.

Lemma start_loop_tracked symbols attempt sessions :
  symbols <> ∅ ->
  start_loop symbols attempt sessions = replicate (length sessions) 5.
Proof.
  intros Hne. revert attempt.
  induction sessions as [|t rest IH]; intros attempt; [done|].
  simpl. unfold _connect_and_listen, _build_stream_url.
  rewrite decide_False by done.
  destruct t; simpl; by rewrite IH.
Qed.

(** X22.  While at least one symbol is configured, every failure of the
    transport is caught inside [_connect_and_listen], so [start] resets its
    attempt counter after each session: the pause before every reconnection
    is 5 seconds, however many sessions fail in a row. *)
Theorem reconnect_delay_constant (symbols : gset string)
    (sessions : list transport) :
  symbols <> ∅ ->
  start symbols sessions = replicate (length sessions) 5.
Proof. intros Hne. by apply start_loop_tracked. Qed.

Lemma reconnect_delay_constant_witness :
  start {["BTCUSDT"]} [ConnectionClosed; TimeoutError; OtherException]
  = replicate 3 5.
Proof.
  apply (reconnect_delay_constant {["BTCUSDT"]}
           [ConnectionClosed; TimeoutError; OtherException]).
  apply non_empty_singleton_L.
Defined.

Lemma start_loop_untracked attempt sessions (k : nat) :
  0 <= attempt -> (k < length sessions)%nat ->
  start_loop ∅ attempt sessions !! k
  = Some (Z.min (5 * 2 ^ (attempt + Z.of_nat k)) 60).
Proof.
  revert attempt k.
  induction sessions as [|t rest IH]; intros attempt k Ha Hk;
    [simpl in Hk; lia|].
  simpl. unfold _connect_and_listen, _build_stream_url.
  rewrite decide_True by done.
  destruct k as [|k]; simpl.
  - unfold reconnect_delay, max_reconnect_delay.
    by replace (attempt + 1 - 1) with (attempt + Z.of_nat 0) by lia.
  - rewrite IH by (simpl in Hk; lia).
    by replace (attempt + 1 + Z.of_nat k) with (attempt + Z.of_nat (S k)) by lia.
Qed.

(** X23.  With no symbol configured each session raises before connecting,
    the counter is never reset, and the pause before the reconnection
    after the k-th session in a row (counted from 0) is min(5 * 2^k, 60)
    seconds: 5, 10, 20, 40 and then 60 for ever. *)
Theorem reconnect_backoff_doubles (sessions : list transport) (k : nat) :
  (k < length sessions)%nat ->
  start ∅ sessions !! k = Some (Z.min (5 * 2 ^ Z.of_nat k) 60) /\
  ((4 <= k)%nat -> start ∅ sessions !! k = Some 60).
Proof.
  intros Hk. unfold start.
  rewrite start_loop_untracked by (done || lia). rewrite Z.add_0_l.
  split; [done|]. intros H4. f_equal.
  apply Z.min_r.
  replace (Z.of_nat k) with (4 + (Z.of_nat k - 4)) by lia.
  rewrite Z.pow_add_r by lia.
  assert (1 <= 2 ^ (Z.of_nat k - 4))
    by (change 1 with (2 ^ 0); apply Z.pow_le_mono_r; lia).
  change (2 ^ 4) with 16. lia.
Qed.

Lemma reconnect_backoff_doubles_witness :
  start ∅ [StreamEnded; StreamEnded; StreamEnded] !! 2%nat
  = Some (Z.min (5 * 2 ^ Z.of_nat 2) 60) /\
  ((4 <= 2)%nat ->
   start ∅ [StreamEnded; StreamEnded; StreamEnded] !! 2%nat = Some 60).
Proof.
  apply (reconnect_backoff_doubles [StreamEnded; StreamEnded; StreamEnded] 2).
  simpl. lia.
Defined.

End ReconnectFacts.

(** ** Repeated evaluation of a summary *)

Section SummaryAlertFacts.
Import Alerts.

Lemma fire_step m clk ty title msg v me th d :
  valid_type ty = true ->
  last_alert_time m !! alert_key ty title None = None ->
  exists m',
    bind (create_alert m clk ty title msg None v me th d)
         (fun m _ => Ret m tt) = Ret m' tt /\
    cooldown_seconds m' = cooldown_seconds m /\
    last_alert_time m'
    = <[alert_key ty title None := now_fire clk]> (last_alert_time m).
Proof.
  intros Hv Hn. unfold create_alert, _should_fire_alert.
  rewrite Hn, Hv. simpl. eexists. by repeat split.
Qed.

Lemma hold_step m clk ty title msg v me th d last :
  last_alert_time m !! alert_key ty title None = Some last ->
  now_check clk - last < cooldown_seconds m * 1000000 ->
  bind (create_alert m clk ty title msg None v me th d)
       (fun m _ => Ret m tt) = Ret m tt.
Proof.
  intros Hl He. unfold create_alert.
  by rewrite (should_fire_false _ _ _ last).
Qed.

Lemma rule_keys_distinct :
  alert_key "ALERT" "Z-Score Threshold Breach" None
    <> alert_key "warning" "Low Correlation Detected" None /\
  alert_key "ALERT" "Z-Score Threshold Breach" None
    <> alert_key "warning" "High Volatility Alert" None /\
  alert_key "warning" "Low Correlation Detected" None
    <> alert_key "warning" "High Volatility Alert" None.
Proof. by repeat split. Qed.

Lemma summary_first_pass m cz cc cv s thr :
  last_alert_time m = ∅ ->
  exists m1,
    evaluate_summary_alerts m cz cc cv s thr = Ret m1 tt /\
    cooldown_seconds m1 = cooldown_seconds m /\
    ((thr < Qabs (zScore s))%Q ->
     last_alert_time m1 !! alert_key "ALERT" "Z-Score Threshold Breach" None
     = Some (now_fire cz)) /\
    ((Qabs (correlation s) < 5 # 10)%Q ->
     last_alert_time m1 !! alert_key "warning" "Low Correlation Detected" None
     = Some (now_fire cc)) /\
    ((500 < rollingVolatility s)%Q ->
     last_alert_time m1 !! alert_key "warning" "High Volatility Alert" None
     = Some (now_fire cv)).
Proof.
  intros Hempty. destruct rule_keys_distinct as (Hzc & Hzv & Hcv).
  unfold evaluate_summary_alerts.
  (* z-score rule *)
  assert (exists mz,
    (if Qlt_le_dec thr (Qabs (zScore s))
     then evaluate_zscore_alert m cz (zScore s) thr else Ret m tt) = Ret mz tt /\
    cooldown_seconds mz = cooldown_seconds m /\
    ((thr < Qabs (zScore s))%Q ->
     last_alert_time mz !! alert_key "ALERT" "Z-Score Threshold Breach" None
     = Some (now_fire cz)) /\
    last_alert_time mz !! alert_key "warning" "Low Correlation Detected" None
      = None /\
    last_alert_time mz !! alert_key "warning" "High Volatility Alert" None
      = None) as (mz & -> & Hcz & Hz & Hzc' & Hzv').
  { unfold evaluate_zscore_alert.
    destruct (Qlt_le_dec thr (Qabs (zScore s))) as [Hlt|Hle].
    - edestruct (fire_step m cz "ALERT" "Z-Score Threshold Breach")
        as (mz & Hrun & Hcd & HL); [done|by rewrite Hempty|].
      exists mz. split; [exact Hrun|]. split; [done|]. rewrite HL, Hempty.
      split; [intros _; apply lookup_insert_eq|].
      by rewrite !lookup_insert_ne, lookup_empty by done.
    - exists m. rewrite Hempty. repeat split; try apply lookup_empty.
      intros Hlt. exfalso. Lqa.lra. }
  cbn [bind].
  (* correlation rule *)
  assert (exists mc,
    evaluate_correlation_alert mz cc (correlation s) (5 # 10) = Ret mc tt /\
    cooldown_seconds mc = cooldown_seconds m /\
    ((thr < Qabs (zScore s))%Q ->
     last_alert_time mc !! alert_key "ALERT" "Z-Score Threshold Breach" None
     = Some (now_fire cz)) /\
    ((Qabs (correlation s) < 5 # 10)%Q ->
     last_alert_time mc !! alert_key "warning" "Low Correlation Detected" None
     = Some (now_fire cc)) /\
    last_alert_time mc !! alert_key "warning" "High Volatility Alert" None
      = None) as (mc & -> & Hcc & Hz' & Hc & Hcv').
  { unfold evaluate_correlation_alert.
    destruct (Qlt_le_dec (Qabs (correlation s)) (5 # 10)) as [Hlt|Hle].
    - edestruct (fire_step mz cc "warning" "Low Correlation Detected")
        as (mc & Hrun & Hcd & HL); [done|exact Hzc'|].
      exists mc. split; [exact Hrun|]. split; [congruence|]. rewrite HL.
      split; [intros Hb; rewrite lookup_insert_ne by done; auto|].
      split; [intros _; apply lookup_insert_eq|].
      by rewrite lookup_insert_ne by done.
    - exists mz. repeat split; try done.
      intros Hlt. exfalso. Lqa.lra. }
  cbn [bind].
  (* volatility rule *)
  unfold evaluate_volatility_alert.
  destruct (Qlt_le_dec 500 (rollingVolatility s)) as [Hlt|Hle].
  - edestruct (fire_step mc cv "warning" "High Volatility Alert")
      as (mv & Hrun & Hcd & HL); [done|exact Hcv'|].
    exists mv. split; [exact Hrun|]. split; [congruence|]. rewrite HL.
    split; [intros Hb; rewrite lookup_insert_ne by done; auto|].
    split; [intros Hb; rewrite lookup_insert_ne by done; auto|].
    intros _. apply lookup_insert_eq.
  - exists mc. repeat split; try done.
    intros Hlt. exfalso. Lqa.lra.
Qed.

(** X24.  Starting from a manager without cooldown entries (fresh, or after
    [clear_alerts]), [evaluate_summary_alerts] returns normally; and when
    the same summary is evaluated again while, for each of the three rules,
    the cooldown since the first evaluation has not elapsed, the second
    evaluation emits nothing and leaves the manager unchanged. *)
Theorem summary_alerts_rate_limited (m : AlertManager)
    (cz cc cv cz' cc' cv' : Clock) (s : SummaryStats) (thr : Q) :
  last_alert_time m = ∅ ->
  now_check cz' - now_fire cz < cooldown_seconds m * 1000000 ->
  now_check cc' - now_fire cc < cooldown_seconds m * 1000000 ->
  now_check cv' - now_fire cv < cooldown_seconds m * 1000000 ->
  exists m1,
    evaluate_summary_alerts m cz cc cv s thr = Ret m1 tt /\
    evaluate_summary_alerts m1 cz' cc' cv' s thr = Ret m1 tt.
Proof.
  intros Hempty Hez Hec Hev.
  destruct (summary_first_pass m cz cc cv s thr Hempty)
    as (m1 & Hrun & Hcd & Hz & Hc & Hv).
  exists m1. split; [exact Hrun|].
  rewrite <- Hcd in Hez, Hec, Hev.
  unfold evaluate_summary_alerts, evaluate_zscore_alert.
  destruct (Qlt_le_dec thr (Qabs (zScore s))) as [Hlt|_].
  - rewrite (hold_step m1 cz' _ _ _ _ _ _ _ (now_fire cz)) by auto.
    cbn [bind]. unfold evaluate_correlation_alert.
    destruct (Qlt_le_dec (Qabs (correlation s)) (5 # 10)) as [Hlc|_].
    + rewrite (hold_step m1 cc' _ _ _ _ _ _ _ (now_fire cc)) by auto.
      cbn [bind]. unfold evaluate_volatility_alert.
      destruct (Qlt_le_dec 500 (rollingVolatility s)) as [Hlv|_]; [|done].
      by rewrite (hold_step m1 cv' _ _ _ _ _ _ _ (now_fire cv)) by auto.
    + cbn [bind]. unfold evaluate_volatility_alert.
      destruct (Qlt_le_dec 500 (rollingVolatility s)) as [Hlv|_]; [|done].
      by rewrite (hold_step m1 cv' _ _ _ _ _ _ _ (now_fire cv)) by auto.
  - cbn [bind]. unfold evaluate_correlation_alert.
    destruct (Qlt_le_dec (Qabs (correlation s)) (5 # 10)) as [Hlc|_].
    + rewrite (hold_step m1 cc' _ _ _ _ _ _ _ (now_fire cc)) by auto.
      cbn [bind]. unfold evaluate_volatility_alert.
      destruct (Qlt_le_dec 500 (rollingVolatility s)) as [Hlv|_]; [|done].
      by rewrite (hold_step m1 cv' _ _ _ _ _ _ _ (now_fire cv)) by auto.
    + cbn [bind]. unfold evaluate_volatility_alert.
      destruct (Qlt_le_dec 500 (rollingVolatility s)) as [Hlv|_]; [|done].
      by rewrite (hold_step m1 cv' _ _ _ _ _ _ _ (now_fire cv)) by auto.
Qed.

Lemma summary_alerts_rate_limited_witness :
  exists m1,
    evaluate_summary_alerts Samples.manager0
      (Samples.clock_at 0 "a") (Samples.clock_at 1 "b") (Samples.clock_at 2 "c")
      {| spread := 1; zScore := 3; rollingVolatility := 600;
         correlation := 1 # 10 |} 2 = Ret m1 tt /\
    evaluate_summary_alerts m1
      (Samples.clock_at 500000 "d") (Samples.clock_at 500001 "e")
      (Samples.clock_at 500002 "f")
      {| spread := 1; zScore := 3; rollingVolatility := 600;
         correlation := 1 # 10 |} 2 = Ret m1 tt.
Proof.
  apply (summary_alerts_rate_limited Samples.manager0
           (Samples.clock_at 0 "a") (Samples.clock_at 1 "b")
           (Samples.clock_at 2 "c") (Samples.clock_at 500000 "d")
           (Samples.clock_at 500001 "e") (Samples.clock_at 500002 "f"));
    reflexivity.
Defined.

End SummaryAlertFacts.

(** ** Clearing the tick buffers *)

Section ClearAllFacts.
Import IngestionEngineOps.

Lemma collect_price_cleared e prices symbol :
  collect_price (clear_all e) prices symbol = prices.
Proof.
  unfold collect_price, clear_all. simpl. rewrite lookup_fmap.
  by destruct (buffers e !! symbol).
Qed.

(** X25.  [clear_all] empties every buffer but forgets no symbol: the
    symbols of [get_active_symbols] are the same as before, each buffer
    holds no tick, and [get_latest_prices] has no price for any symbol,
    whichever symbols are asked for. *)
Theorem clear_all_keeps_symbols (e : IngestionEngine)
    (symbols : option (list string)) :
  get_active_symbols (clear_all e) ≡ₚ get_active_symbols e /\
  (forall symbol b, buffers (clear_all e) !! symbol = Some b ->
                    get_all b = [] /\ forall n, get_latest b n = []) /\
  get_latest_prices (clear_all e) symbols = ∅.
Proof.
  split; [|split].
  - unfold get_active_symbols, clear_all. simpl.
    rewrite map_to_list_fmap, <- list_fmap_compose.
    erewrite list_fmap_ext; [reflexivity|]. by intros ? [? ?].
  - intros symbol b. unfold clear_all. simpl. rewrite lookup_fmap.
    destruct (buffers e !! symbol) as [b0|]; [|done].
    intros [= <-]. split; [done|]. intros n.
    unfold get_latest, Py.slice_from. simpl. apply drop_nil.
  - unfold get_latest_prices.
    generalize (match symbols with
                | Some (s :: l) => s :: l
                | _ => (map_to_list (buffers (clear_all e))).*1
                end).
    intros l. generalize (∅ : gmap string Q).
    induction l as [|x l IH]; intros prices; simpl; [done|].
    by rewrite collect_price_cleared.
Qed.

End ClearAllFacts.
